(** * addictive-videos-editor: the silence-segmentation pass

    A shallow embedding of [RemoveSilence.cut_clips]
    (src/video_editor/features/remove_silence.py) and of the orchestrator
    step that is meant to drive it (src/video_editor/orchestrator.py),
    followed by the properties the specification states about them.

    Python integers are unbounded, hence [Z].  Python statements that
    mutate [self] or the timeline and may raise are written in a state
    monad whose state survives an exception, as Python's does. *)

From Stdlib Require Import ZArith List String Ascii Bool Lia.
From Stdlib Require Import OrdersEx Sorted Permutation RelationClasses.
Import ListNotations.
Local Open Scope string_scope.
Local Open Scope list_scope.
Local Open Scope Z_scope.

Set Implicit Arguments.

(* ------------------------------------------------------------------ *)
(** ** Data model                                                      *)
(* ------------------------------------------------------------------ *)

(** A clip placed on the sequence: the keyword arguments of
    [add_clip_to_timeline], which are also the attributes the code reads
    from a stored clip ([ref], [name], [num_frames]). *)
Record ClipItem := mkClip {
  video_ref     : string;
  num_frames    : Z;
  start         : Z;
  offset        : Z;
  fps           : string;
  filename      : string;
  custom_attrib : list (string * string)
}.

(** One element of the list ['v'][0] of a loud-map document.  The code
    reads the keys ['offset'] and ['dur'] only. *)
Record LoudPart := mkLoud {
  lp_offset : Z;
  lp_dur    : Z
}.

(** The loud-map document as [json.load] returns it: the code reads
    ['v'] (a list of layers) and ['timebase'] (a string such as "30/1"). *)
Record LoudMapJson := mkJson {
  json_v        : list (list LoudPart);
  json_timebase : string
}.

(** What [open]/[json.load] find at a path. *)
Inductive File :=
| Absent
| Unreadable
| Json (j : LoudMapJson).

(** The call site of an [add_clip_to_timeline] call inside [cut_clips]:
    source line 140 (gap before a loud part, step 4a), line 153 (the loud
    part, step 4b), line 173 (gap after the last loud part, step 5). *)
Inductive Site := GapBefore | LoudInterval | GapAfter.

(** The mutating calls the timeline receives, in order (ghost state). *)
Inductive Call :=
| AddClipToTimeline (site : Site) (c : ClipItem)
| RemoveStoredVideoAsset (ref : string) (idx : nat)
| UpdateSequenceDuration.

(** Modelled from the spec: the Timeline Store (entities/timeline.py is
    not among the sources).  An ordered sequence of placed clips, the
    asset references in registration order and the cached total
    duration; [calls] records the mutating calls received. *)
Record Timeline := mkTimeline {
  video_assets_refs : list string;
  clips             : list ClipItem;
  sequence_duration : Z;
  calls             : list Call
}.

(** The fields of a [RemoveSilence] object set by [__init__]. *)
Record RemoveSilence := mkRemoveSilence {
  timeline                 : Timeline;
  videos_folder            : string;
  loud_maps_folder         : string;
  loud_map_sufix           : string;
  loud_video_preview_sufix : string;
  preview_videos_list_file : string;
  preview_final_video      : string;
  cumulative_duration      : Z;
  margin                   : string
}.

Inductive Exn :=
| FileNotFoundError (path : string)
| JSONDecodeError (path : string)
| IndexError
| NotFound (ref : string) (idx : nat)
| AttributeError (cls attr : string)
| NotCallable (attr : string).

Inductive Result (A : Type) :=
| Ok (a : A)
| Raise (e : Exn).
Arguments Raise {A} e.

(* ------------------------------------------------------------------ *)
(** ** Strings and paths                                               *)
(* ------------------------------------------------------------------ *)

(** [s.split(sep)[0]] for a one-character separator: the text before the
    first occurrence of [sep], or all of [s] when there is none. *)
Fixpoint split_first (sep : ascii) (s : string) : string :=
  match s with
  | EmptyString => EmptyString
  | String c rest =>
      if Ascii.eqb c sep then EmptyString else String c (split_first sep rest)
  end.

Fixpoint ends_with_slash (s : string) : bool :=
  match s with
  | EmptyString => false
  | String c EmptyString => Ascii.eqb c "/"
  | String _ rest => ends_with_slash rest
  end.

(** [os.path.join(a, b)] of posixpath, for two components. *)
Definition os_path_join (a b : string) : string :=
  match b with
  | String "/" _ => b
  | _ => match a with
         | EmptyString => b
         | _ => if ends_with_slash a then (a ++ b)%string
                else (a ++ "/" ++ b)%string
         end
  end.

(* ------------------------------------------------------------------ *)
(** ** The monad of methods of a [RemoveSilence] object                *)
(* ------------------------------------------------------------------ *)

Definition M (A : Type) : Type := RemoveSilence -> Result A * RemoveSilence.

Definition run {A} (m : M A) (self : RemoveSilence) : Result A * RemoveSilence :=
  m self.

Definition ret {A} (a : A) : M A := fun self => (Ok a, self).

Definition raise {A} (e : Exn) : M A := fun self => (Raise e, self).

Definition bind {A B} (m : M A) (k : A -> M B) : M B :=
  fun self =>
    match m self with
    | (Ok a, self') => k a self'
    | (Raise e, self') => (Raise e, self')
    end.

Declare Scope py_scope.
Delimit Scope py_scope with py.
Notation "x <- m ;; k" := (bind m (fun x => k))
  (at level 61, m at next level, right associativity) : py_scope.
Notation "m ;; k" := (bind m (fun _ => k))
  (at level 61, right associativity) : py_scope.
Local Open Scope py_scope.

Definition get_self : M RemoveSilence := fun self => (Ok self, self).

Definition with_timeline (f : Timeline -> Timeline) (self : RemoveSilence)
  : RemoveSilence :=
  mkRemoveSilence (f (timeline self)) (videos_folder self)
    (loud_maps_folder self) (loud_map_sufix self)
    (loud_video_preview_sufix self) (preview_videos_list_file self)
    (preview_final_video self) (cumulative_duration self) (margin self).

Definition with_cumulative_duration (d : Z) (self : RemoveSilence)
  : RemoveSilence :=
  mkRemoveSilence (timeline self) (videos_folder self)
    (loud_maps_folder self) (loud_map_sufix self)
    (loud_video_preview_sufix self) (preview_videos_list_file self)
    (preview_final_video self) d (margin self).

(** [for x in xs: body(x)] *)
Fixpoint for_each {A} (xs : list A) (body : A -> M unit) : M unit :=
  match xs with
  | [] => ret tt
  | x :: rest => body x ;; for_each rest body
  end.

(* ------------------------------------------------------------------ *)
(** ** Timeline Store operations                                       *)
(* ------------------------------------------------------------------ *)

(** The [idx]-th clip of asset [ref] in sequence order. *)
Fixpoint stored_video_asset (ref : string) (idx : nat) (cs : list ClipItem)
  : option ClipItem :=
  match cs with
  | [] => None
  | c :: rest =>
      if String.eqb (video_ref c) ref then
        match idx with
        | O => Some c
        | S i => stored_video_asset ref i rest
        end
      else stored_video_asset ref idx rest
  end.

(** The sequence without the [idx]-th clip of asset [ref]. *)
Fixpoint without_stored_video_asset (ref : string) (idx : nat)
    (cs : list ClipItem) : option (list ClipItem) :=
  match cs with
  | [] => None
  | c :: rest =>
      if String.eqb (video_ref c) ref then
        match idx with
        | O => Some rest
        | S i => option_map (cons c) (without_stored_video_asset ref i rest)
        end
      else option_map (cons c) (without_stored_video_asset ref idx rest)
  end.

Definition total_frames (cs : list ClipItem) : Z :=
  fold_right Z.add 0 (map num_frames cs).

Definition tl_append (site : Site) (c : ClipItem) (t : Timeline) : Timeline :=
  mkTimeline (video_assets_refs t) (clips t ++ [c]) (sequence_duration t)
    (calls t ++ [AddClipToTimeline site c]).

Definition tl_remove (ref : string) (idx : nat) (cs' : list ClipItem)
    (t : Timeline) : Timeline :=
  mkTimeline (video_assets_refs t) cs' (sequence_duration t)
    (calls t ++ [RemoveStoredVideoAsset ref idx]).

Definition tl_update_duration (t : Timeline) : Timeline :=
  mkTimeline (video_assets_refs t) (clips t) (total_frames (clips t))
    (calls t ++ [UpdateSequenceDuration]).

(** Modelled from the spec: [getBaseClip], "returns the single
    full-duration clip currently representing an asset ... Fails with
    NotFound if the asset has no such clip". *)
Definition get_stored_video_asset (ref : string) (idx : nat) : M ClipItem :=
  fun self =>
    match stored_video_asset ref idx (clips (timeline self)) with
    | Some c => (Ok c, self)
    | None => (Raise (NotFound ref idx), self)
    end.

(** Modelled from the spec: [appendClip], "appends a new ClipItem to the
    sequence.  No validation ... this operation is a pure insert".  The
    first argument is the call site, kept in the call record only. *)
Definition add_clip_to_timeline (site : Site) (video_ref : string)
    (num_frames start offset : Z) (fps filename : string)
    (custom_attrib : list (string * string)) : M unit :=
  fun self =>
    (Ok tt,
     with_timeline
       (tl_append site
          (mkClip video_ref num_frames start offset fps filename custom_attrib))
       self).

(** Modelled from the spec: [removeBaseClip], "deletes the asset's
    original full-duration clip from the sequence.  Fails with NotFound
    if absent". *)
Definition remove_stored_video_asset (ref : string) (idx : nat) : M unit :=
  fun self =>
    match without_stored_video_asset ref idx (clips (timeline self)) with
    | Some cs' => (Ok tt, with_timeline (tl_remove ref idx cs') self)
    | None => (Raise (NotFound ref idx), self)
    end.

(** Modelled from the spec: [recomputeTotalDuration], "sums durations of
    all current clips; becomes the new cached total". *)
Definition update_sequence_duration : M unit :=
  fun self => (Ok tt, with_timeline tl_update_duration self).

(* ------------------------------------------------------------------ *)
(** ** RemoveSilence                                                   *)
(* ------------------------------------------------------------------ *)

(** [RemoveSilence.__init__(self, timeline, videos_folder, margin=0.2)];
    [margin] is kept as the text it is formatted to. *)
Definition RemoveSilence_init (tl : Timeline) (folder : string) : RemoveSilence :=
  let loud_maps := os_path_join folder "remove_silence" in
  mkRemoveSilence tl folder loud_maps "_loud_map.json" "_preview.mp4"
    (os_path_join loud_maps "videos.txt")
    (os_path_join loud_maps "final_preview.mp4")
    0 "0.2sec".

Definition silent_attrib : list (string * string) := [("ave_silent", "true")].

(** The three loop-carried locals of the inner loop. *)
Record Locals := mkLocals {
  previous_loud_clip_offset   : Z;
  previous_loud_clip_start    : Z;
  previous_loud_clip_duration : Z
}.

Section WithFiles.

(** The files under the loud-maps folder, by path. *)
Variable fs : string -> File.

Definition loud_map_path (self : RemoveSilence) (video_name : string) : string :=
  os_path_join (loud_maps_folder self) (video_name ++ loud_map_sufix self)%string.

(** [get_loud_map], lines 94-100. *)
Definition get_loud_map (video_name : string) : M LoudMapJson :=
  fun self =>
    let path := loud_map_path self video_name in
    match fs path with
    | Absent => (Raise (FileNotFoundError path), self)
    | Unreadable => (Raise (JSONDecodeError path), self)
    | Json j => (Ok j, self)
    end.

(** [xs[0]] *)
Definition index0 {A} (xs : list A) : M A :=
  match xs with
  | [] => raise IndexError
  | x :: _ => ret x
  end.

(** The body of [for loud_part in loud_map], lines 130-164. *)
Definition loud_part_body (base_asset_clip : ClipItem) (timebase : string)
    (previous_video_duration : Z) (loud_part : LoudPart) (l : Locals)
  : M Locals :=
  let loud_clip_start := lp_offset loud_part in
  let silent_clip_start :=
    previous_loud_clip_start l + previous_loud_clip_duration l in
  let silent_clip_duration := loud_clip_start - silent_clip_start in
  let silent_clip_offset :=
    previous_loud_clip_offset l + previous_loud_clip_duration l in
  (if 0 <? silent_clip_duration then
     add_clip_to_timeline GapBefore
       (video_ref base_asset_clip)
       silent_clip_duration
       silent_clip_offset
       (previous_video_duration + silent_clip_start)
       timebase
       (filename base_asset_clip)
       silent_attrib
   else ret tt) ;;
  let loud_clip_offset := silent_clip_offset + silent_clip_duration in
  add_clip_to_timeline LoudInterval
    (video_ref base_asset_clip)
    (lp_dur loud_part)
    loud_clip_start
    (previous_video_duration + loud_clip_offset)
    timebase
    (filename base_asset_clip)
    [] ;;
  ret (mkLocals loud_clip_offset loud_clip_start (lp_dur loud_part)).

(** [for loud_part in loud_map: ...], lines 129-164. *)
Fixpoint loud_parts_loop (base_asset_clip : ClipItem) (timebase : string)
    (previous_video_duration : Z) (loud_map : list LoudPart) (l : Locals)
  : M Locals :=
  match loud_map with
  | [] => ret l
  | loud_part :: rest =>
      l' <- loud_part_body base_asset_clip timebase previous_video_duration
              loud_part l ;;
      loud_parts_loop base_asset_clip timebase previous_video_duration rest l'
  end.

(** "Add the last silent part", lines 167-181. *)
Definition last_silent_part (base_asset_clip : ClipItem) (timebase : string)
    (previous_video_duration base_clip_duration : Z) (l : Locals) : M unit :=
  if previous_loud_clip_start l + previous_loud_clip_duration l
       <? base_clip_duration then
    let silent_clip_start :=
      previous_loud_clip_start l + previous_loud_clip_duration l in
    let silent_clip_duration := base_clip_duration - silent_clip_start in
    let silent_clip_offset :=
      previous_loud_clip_offset l + previous_loud_clip_duration l in
    add_clip_to_timeline GapAfter
      (video_ref base_asset_clip)
      silent_clip_duration
      silent_clip_offset
      (previous_video_duration + silent_clip_start)
      timebase
      (filename base_asset_clip)
      silent_attrib
  else ret tt.

(** Lines 123-181: the segmentation of one asset once its base clip and
    loud map are at hand. *)
Definition split_asset_clip (base_asset_clip : ClipItem) (timebase : string)
    (base_clip_duration : Z) (loud_map : list LoudPart) : M unit :=
  self <- get_self ;;
  let previous_video_duration := cumulative_duration self in
  l <- loud_parts_loop base_asset_clip timebase previous_video_duration
         loud_map (mkLocals 0 0 0) ;;
  last_silent_part base_asset_clip timebase previous_video_duration
    base_clip_duration l.

(** The body of [for ref in self.timeline.video_assets_refs],
    lines 113-187. *)
Definition cut_clips_asset (ref : string) : M unit :=
  base_asset_clip <- get_stored_video_asset ref 0 ;;
  let filename_without_extension := split_first "." (filename base_asset_clip) in
  let base_clip_duration := num_frames base_asset_clip in
  loud_map_json <- get_loud_map filename_without_extension ;;
  loud_map <- index0 (json_v loud_map_json) ;;
  let timebase := split_first "/" (json_timebase loud_map_json) in
  split_asset_clip base_asset_clip timebase base_clip_duration loud_map ;;
  (fun self =>
     (Ok tt,
      with_cumulative_duration (cumulative_duration self + base_clip_duration)
        self)) ;;
  remove_stored_video_asset ref 0.

(** [cut_clips], lines 103-190. *)
Definition cut_clips : M unit :=
  self <- get_self ;;
  for_each (video_assets_refs (timeline self)) cut_clips_asset ;;
  update_sequence_duration.

End WithFiles.

(* ------------------------------------------------------------------ *)
(** ** Orchestrator                                                    *)
(* ------------------------------------------------------------------ *)

(** The methods the class body of [RemoveSilence] defines (lines 13-248). *)
Inductive Method :=
| m_init
| m_generate_video_loud_map
| m_generate_loud_video_preview
| m_generate_loud_map_for_each_video_in_folder
| m_get_loud_map
| m_cut_clips
| m_remove_silence
| m_generate_previews_for_videos
| m_join_all_preview_videos
| m_generate_final_preview_video.

(** The namespace of the class, in definition order. *)
Definition RemoveSilence_class : list (string * Method) :=
  [ ("__init__", m_init);
    ("generate_video_loud_map", m_generate_video_loud_map);
    ("generate_loud_video_preview", m_generate_loud_video_preview);
    ("generate_loud_map_for_each_video_in_folder",
       m_generate_loud_map_for_each_video_in_folder);
    ("get_loud_map", m_get_loud_map);
    ("cut_clips", m_cut_clips);
    ("remove_silence", m_remove_silence);
    ("generate_previews_for_videos", m_generate_previews_for_videos);
    ("join_all_preview_videos", m_join_all_preview_videos);
    ("generate_final_preview_video", m_generate_final_preview_video) ].

(** The names [__init__] binds on the instance (lines 14-28). *)
Definition RemoveSilence_fields : list string :=
  [ "timeline"; "videos_folder"; "loud_maps_folder"; "loud_map_sufix";
    "loud_video_preview_sufix"; "preview_videos_list_file";
    "preview_final_video"; "cumulative_duration"; "margin" ].

Inductive Attr :=
| Field
| Bound (m : Method).

Fixpoint assoc {A} (name : string) (table : list (string * A)) : option A :=
  match table with
  | [] => None
  | (k, v) :: rest => if String.eqb k name then Some v else assoc name rest
  end.

(** Attribute lookup on a [RemoveSilence] instance: the instance
    dictionary, then the class (which has no base class but [object] and
    defines no [__getattr__]). *)
Definition getattr (name : string) : option Attr :=
  if existsb (String.eqb name) RemoveSilence_fields then Some Field
  else option_map Bound (assoc name RemoveSilence_class).

(** [RemoveSilence.remove_silence], lines 192-196: [pass]. *)
Definition RemoveSilence_remove_silence : M unit := ret tt.

(** The parsed command line ([parse_arguments], lines 37-46). *)
Record Args := mkArgs {
  input                : string;
  skip_preprocess      : bool;
  already_preprocessed : bool;
  just_subtitles       : bool;
  skip_subtitles       : bool;
  skip_jcut            : bool
}.

(** The fields of the orchestrator its [remove_silence] step touches;
    [o_timeline] is [self.timeline] as [create_timeline] left it. *)
Record Orchestrator := mkOrchestrator {
  args                : Args;
  input_folder        : string;
  o_timeline          : Timeline;
  remove_silence_feat : option RemoveSilence
}.

Section WithCollaborators.

Variable fs : string -> File.

(** The methods that only drive external tools (auto-editor, ffmpeg)
    or need arguments: their effect is left open. *)
Variable other_method : Method -> M unit.

(** Calling a bound method without arguments. *)
Definition call_method (m : Method) : M unit :=
  match m with
  | m_cut_clips => cut_clips fs
  | m_remove_silence => RemoveSilence_remove_silence
  | _ => other_method m
  end.

(** [Orchestrator.remove_silence], lines 89-96.  The timeline object is
    shared between the orchestrator and the feature, so what a method
    does to it is seen through both. *)
Definition Orchestrator_remove_silence (o : Orchestrator)
  : Result unit * Orchestrator :=
  if just_subtitles (args o) then (Ok tt, o)
  else
    let feat := RemoveSilence_init (o_timeline o) (input_folder o) in
    match getattr "remove_silence_from_videos" with
    | None =>
        (Raise (AttributeError "RemoveSilence" "remove_silence_from_videos"),
         mkOrchestrator (args o) (input_folder o) (o_timeline o) (Some feat))
    | Some Field =>
        (Raise (NotCallable "remove_silence_from_videos"),
         mkOrchestrator (args o) (input_folder o) (o_timeline o) (Some feat))
    | Some (Bound m) =>
        let (r, feat') := run (call_method m) feat in
        (r, mkOrchestrator (args o) (input_folder o) (timeline feat')
              (Some feat'))
    end.

End WithCollaborators.

(* ------------------------------------------------------------------ *)
(** ** Observations on a run                                           *)
(* ------------------------------------------------------------------ *)

(** The calls the timeline received while [m] ran from [self]. *)
Definition new_calls {A} (m : M A) (self : RemoveSilence) : list Call :=
  skipn (List.length (calls (timeline self)))
        (calls (timeline (snd (run m self)))).

(** The clips appended by a list of calls, with their call sites. *)
Fixpoint emitted (cs : list Call) : list (Site * ClipItem) :=
  match cs with
  | [] => []
  | AddClipToTimeline site c :: rest => (site, c) :: emitted rest
  | _ :: rest => emitted rest
  end.

(** The sub-clips emitted for asset [ref] when it is processed from
    [self], in emission order. *)
Definition sub_clips (fs : string -> File) (ref : string)
    (self : RemoveSilence) : list (Site * ClipItem) :=
  emitted (new_calls (cut_clips_asset fs ref) self).

Definition count_updates (cs : list Call) : nat :=
  List.length (filter (fun c => match c with
                           | UpdateSequenceDuration => true
                           | _ => false
                           end) cs).

Definition is_silent (c : ClipItem) : bool :=
  match assoc "ave_silent" (custom_attrib c) with
  | Some v => String.eqb v "true"
  | None => false
  end.

(** (sourceInPoint, duration, silent tag) of a clip. *)
Definition shape (c : ClipItem) : Z * Z * bool :=
  (start c, num_frames c, is_silent c).

(** What the first three statements of the loop body of [cut_clips]
    load for [ref]: the base clip, the document and its first layer. *)
Definition loads (fs : string -> File) (self : RemoveSilence) (ref : string)
    (base : ClipItem) (j : LoudMapJson) (loud_map : list LoudPart) : Prop :=
  stored_video_asset ref 0 (clips (timeline self)) = Some base /\
  fs (loud_map_path self (split_first "." (filename base))) = Json j /\
  hd_error (json_v j) = Some loud_map.

(** The base-clip duration of asset [ref] on a timeline. *)
Definition base_duration (t : Timeline) (ref : string) : Z :=
  match stored_video_asset ref 0 (clips t) with
  | Some c => num_frames c
  | None => 0
  end.

Definition sum_Z (xs : list Z) : Z := fold_right Z.add 0 xs.

(** Well-formed loud maps: every interval inside [0, D), starts
    ascending, no interval beginning before the previous one ends. *)
Definition contained (D : Z) (p : LoudPart) : Prop :=
  0 <= lp_offset p /\ lp_offset p + lp_dur p <= D.

Fixpoint ascending_disjoint (loud_map : list LoudPart) : Prop :=
  match loud_map with
  | p :: (q :: _) as rest =>
      lp_offset p <= lp_offset q /\
      lp_offset p + lp_dur p <= lp_offset q /\
      ascending_disjoint rest
  | _ => True
  end.

Definition well_formed (D : Z) (loud_map : list LoudPart) : Prop :=
  Forall (contained D) loud_map /\ ascending_disjoint loud_map.

(** A loud map that covers [cursor, D) without gaps. *)
Fixpoint covers (cursor D : Z) (loud_map : list LoudPart) : Prop :=
  match loud_map with
  | [] => cursor = D
  | p :: rest =>
      lp_offset p = cursor /\ covers (lp_offset p + lp_dur p) D rest
  end.

(** Consecutive clips meet: each ends where the next begins. *)
Fixpoint contiguous (cs : list ClipItem) : Prop :=
  match cs with
  | c :: (c' :: _) as rest =>
      start c + num_frames c = start c' /\ contiguous rest
  | _ => True
  end.

(** ** Closed form of the segmentation of one asset *)

Definition gap_clip (base : ClipItem) (tb : string) (pvd from to : Z)
  : ClipItem :=
  mkClip (video_ref base) (to - from) from (pvd + from) tb (filename base)
    silent_attrib.

Definition loud_clip (base : ClipItem) (tb : string) (pvd : Z) (p : LoudPart)
  : ClipItem :=
  mkClip (video_ref base) (lp_dur p) (lp_offset p) (pvd + lp_offset p) tb
    (filename base) [].

(** What the loop of lines 129-164 appends when the source cursor
    (previous start + previous duration) is [cursor]. *)
Fixpoint loop_segments (base : ClipItem) (tb : string) (pvd cursor : Z)
    (loud_map : list LoudPart) : list (Site * ClipItem) :=
  match loud_map with
  | [] => []
  | p :: rest =>
      (if cursor <? lp_offset p
       then [(GapBefore, gap_clip base tb pvd cursor (lp_offset p))]
       else [])
      ++ (LoudInterval, loud_clip base tb pvd p)
      :: loop_segments base tb pvd (lp_offset p + lp_dur p) rest
  end.

(** The source cursor after the loop. *)
Fixpoint end_cursor (cursor : Z) (loud_map : list LoudPart) : Z :=
  match loud_map with
  | [] => cursor
  | p :: rest => end_cursor (lp_offset p + lp_dur p) rest
  end.

(** What lines 167-181 append. *)
Definition last_segment (base : ClipItem) (tb : string) (pvd cursor D : Z)
  : list (Site * ClipItem) :=
  if cursor <? D then [(GapAfter, gap_clip base tb pvd cursor D)] else [].

Definition segments (base : ClipItem) (tb : string) (pvd D : Z)
    (loud_map : list LoudPart) : list (Site * ClipItem) :=
  loop_segments base tb pvd 0 loud_map
  ++ last_segment base tb pvd (end_cursor 0 loud_map) D.

Definition call_of (sc : Site * ClipItem) : Call :=
  AddClipToTimeline (fst sc) (snd sc).

(** The timeline after a run of [add_clip_to_timeline] calls. *)
Definition tl_emit (segs : list (Site * ClipItem)) (t : Timeline) : Timeline :=
  mkTimeline (video_assets_refs t) (clips t ++ map snd segs)
    (sequence_duration t) (calls t ++ map call_of segs).

(** The sequence without the first clip of [ref] (unchanged if none). *)
Definition drop_base (ref : string) (cs : list ClipItem) : list ClipItem :=
  match without_stored_video_asset ref 0 cs with
  | Some cs' => cs'
  | None => cs
  end.

(** The object after one asset was segmented (lines 113-187). *)
Definition asset_done (ref : string) (base : ClipItem)
    (segs : list (Site * ClipItem)) (self : RemoveSilence) : RemoveSilence :=
  with_timeline
    (fun t => tl_remove ref 0 (drop_base ref (clips t)) t)
    (with_cumulative_duration (cumulative_duration self + num_frames base)
       (with_timeline (tl_emit segs) self)).

(** ** Concrete timelines and files for the scenarios of the spec *)

Definition base_clip (ref name : string) (D : Z) : ClipItem :=
  mkClip ref D 0 0 "30" name [].

Definition one_file (path : string) (j : LoudMapJson) : string -> File :=
  fun p => if String.eqb p path then Json j else Absent.

Definition two_files (path1 : string) (j1 : LoudMapJson)
    (path2 : string) (j2 : LoudMapJson) : string -> File :=
  fun p => if String.eqb p path1 then Json j1
           else if String.eqb p path2 then Json j2 else Absent.

(** ** Auxiliary notions for the proofs *)

(** [cs] runs from [from] to [upto] with neither gap nor overlap. *)
Fixpoint chain (from : Z) (cs : list ClipItem) (upto : Z) : Prop :=
  match cs with
  | [] => from = upto
  | c :: rest => start c = from /\ chain (start c + num_frames c) rest upto
  end.

(** Well-formedness seen from the source cursor. *)
Fixpoint well_formed_from (cursor D : Z) (loud_map : list LoudPart) : Prop :=
  match loud_map with
  | [] => cursor <= D
  | p :: rest =>
      cursor <= lp_offset p /\
      well_formed_from (lp_offset p + lp_dur p) D rest
  end.

Definition is_loud_site (sc : Site * ClipItem) : bool :=
  match fst sc with
  | LoudInterval => true
  | _ => false
  end.

Definition has_ref (ref : string) (sc : Site * ClipItem) : bool :=
  String.eqb (video_ref (snd sc)) ref.

(** Two assets: the first of 100 frames with an empty loud map, the
    second of 80 frames with the loud map [(0, 80)]. *)
Definition two_assets_timeline : Timeline :=
  mkTimeline ["r1"; "r2"]
    [base_clip "r1" "first.mp4" 100; base_clip "r2" "second.mp4" 80] 180 [].

Definition two_assets_files : string -> File :=
  two_files
    "videos/remove_silence/first_loud_map.json" (mkJson [[]] "30/1")
    "videos/remove_silence/second_loud_map.json"
    (mkJson [[mkLoud 0 80]] "30/1").

(** One asset of [D] frames whose loud map, with timebase 30/1, is the
    first layer of the document at the path [cut_clips] opens for it. *)
Definition one_asset_timeline (D : Z) : Timeline :=
  mkTimeline ["r1"] [base_clip "r1" "clip.mp4" D] D [].

Definition one_asset_files (loud_map : list LoudPart) : string -> File :=
  one_file "videos/remove_silence/clip_loud_map.json"
    (mkJson [loud_map] "30/1").

Definition one_asset (D : Z) : RemoveSilence :=
  RemoveSilence_init (one_asset_timeline D) "videos".

(** "The sequence total duration is recomputed exactly once per asset":
    a run makes as many [update_sequence_duration] calls as there are
    assets. *)
Definition recomputed_once_per_asset (fs : string -> File)
    (self : RemoveSilence) : Prop :=
  count_updates (new_calls (cut_clips fs) self)
  = List.length (video_assets_refs (timeline self)).

(** What [get_loud_map] raises when the file at [path] gives no map. *)
Definition load_error (f : File) (path : string) : Exn :=
  match f with
  | Unreadable => JSONDecodeError path
  | _ => FileNotFoundError path
  end.

(** Only the first asset's loud map is on disk. *)
Definition first_file_only : string -> File :=
  one_file "videos/remove_silence/first_loud_map.json" (mkJson [[]] "30/1").

(** Command line without [--just-subtitles]. *)
Definition plain_args : Args := mkArgs "videos" true false false false false.

(** The loud-map document of a base clip can be loaded and has a first
    layer (what lines 119-120 need). *)
Definition loadable (fs : string -> File) (self : RemoveSilence)
    (b : ClipItem) : Prop :=
  exists j loud_map,
    fs (loud_map_path self (split_first "." (filename b))) = Json j /\
    hd_error (json_v j) = Some loud_map.

(** The base clip has a frame count and a well-formed loud map. *)
Definition tiled (fs : string -> File) (self : RemoveSilence)
    (b : ClipItem) : Prop :=
  0 <= num_frames b /\
  forall j loud_map,
    fs (loud_map_path self (split_first "." (filename b))) = Json j ->
    hd_error (json_v j) = Some loud_map ->
    well_formed (num_frames b) loud_map.

(** Two file names that agree up to and including a dot. *)
Definition dotted (stem ext : string) : string :=
  (stem ++ String "." ext)%string.

(** One asset whose loud map has an NTSC timebase. *)
Definition ntsc_files : string -> File :=
  one_file "videos/remove_silence/clip_loud_map.json"
    (mkJson [[mkLoud 0 10]] "30000/1001").

(** Two assets whose file names differ only after the first dot. *)
Definition takes_timeline : Timeline :=
  mkTimeline ["r1"; "r2"]
    [base_clip "r1" "take.1.mp4" 100; base_clip "r2" "take.2.mp4" 80] 180 [].

Definition takes_files : string -> File :=
  one_file "videos/remove_silence/take_loud_map.json"
    (mkJson [[mkLoud 0 80]] "30/1").

(* ------------------------------------------------------------------ *)
(** ** The methods that drive external tools                           *)
(* ------------------------------------------------------------------ *)

(** How [subprocess.run(command, check=True, text=True,
    capture_output=True)] ends: exit status 0, a non-zero exit status
    ([CalledProcessError]), or no process at all because the executable
    is not found ([FileNotFoundError]). *)
Inductive ToolResult :=
| Completed (stdout : string)
| NonZeroExit (stderr : string)
| CannotStart.

(** What the tool methods do to the outside world, in order. *)
Record Shell := mkShell {
  made_dirs : list string;
  commands  : list (list string);
  printed   : list string
}.

Definition sh_makedirs (path : string) (sh : Shell) : Shell :=
  mkShell (made_dirs sh ++ [path]) (commands sh) (printed sh).

Definition sh_run (command : list string) (sh : Shell) : Shell :=
  mkShell (made_dirs sh) (commands sh ++ [command]) (printed sh).

Definition sh_print (line : string) (sh : Shell) : Shell :=
  mkShell (made_dirs sh) (commands sh) (printed sh ++ [line]).

Fixpoint has_slash (s : string) : bool :=
  match s with
  | EmptyString => false
  | String c rest => Ascii.eqb c "/" || has_slash rest
  end.

(** [os.path.basename(p)] of posixpath: the text after the last "/". *)
Fixpoint basename (p : string) : string :=
  match p with
  | EmptyString => EmptyString
  | String c rest =>
      if has_slash rest then basename rest
      else if Ascii.eqb c "/" then rest else p
  end.

(** The text up to and including the last "/". *)
Fixpoint upto_last_slash (p : string) : string :=
  match p with
  | EmptyString => EmptyString
  | String c rest =>
      if has_slash rest then String c (upto_last_slash rest)
      else if Ascii.eqb c "/" then String c EmptyString else EmptyString
  end.

Fixpoint all_slashes (s : string) : bool :=
  match s with
  | EmptyString => true
  | String c rest => Ascii.eqb c "/" && all_slashes rest
  end.

(** [s.rstrip('/')] *)
Fixpoint rstrip_slashes (s : string) : string :=
  match s with
  | EmptyString => EmptyString
  | String c rest =>
      match rstrip_slashes rest with
      | EmptyString =>
          if Ascii.eqb c "/" then EmptyString else String c EmptyString
      | kept => String c kept
      end
  end.

(** [os.path.dirname(p)] of posixpath. *)
Definition dirname (p : string) : string :=
  let head := upto_last_slash p in
  if all_slashes head then head else rstrip_slashes head.

(** The order of [str] in Python, on the bytes of the text. *)
Definition str_leb (a b : string) : bool :=
  match String_as_OT.compare a b with
  | Gt => false
  | _ => true
  end.

Fixpoint insert_sorted (x : string) (l : list string) : list string :=
  match l with
  | [] => [x]
  | y :: rest => if str_leb x y then x :: l else y :: insert_sorted x rest
  end.

(** [sorted(l)] for a list of strings: the ascending rearrangement. *)
Fixpoint sorted (l : list string) : list string :=
  match l with
  | [] => []
  | x :: rest => insert_sorted x (sorted rest)
  end.

(** [s.endswith(suffix)] *)
Fixpoint ends_with (suffix s : string) : bool :=
  String.eqb s suffix
  || match s with
     | EmptyString => false
     | String _ rest => ends_with suffix rest
     end.

Section WithTools.

(** The outcome of running auto-editor with a given command line. *)
Variable auto_editor : list string -> ToolResult.

(** [utils.files.get_video_files] and [os.path.isfile], as they answer
    during the call. *)
Variable get_video_files : string -> list string.
Variable isfile : string -> bool.

(** [generate_video_loud_map], lines 30-51. *)
Definition generate_video_loud_map (self : RemoveSilence)
    (video_path video_name : string) (sh : Shell) : Result unit * Shell :=
  let command :=
    [ "auto-editor";
      video_path;
      "--export-as-json";
      "--margin";
      margin self;
      "--output-file";
      os_path_join (loud_maps_folder self)
        (video_name ++ loud_map_sufix self)%string ] in
  match auto_editor command with
  | Completed stdout =>
      (Ok tt,
       sh_print ("Loud Map generated successfully! Input: " ++ video_path)%string
         (sh_print stdout (sh_run command sh)))
  | NonZeroExit stderr =>
      (Ok tt,
       sh_print ("An error occurred: " ++ stderr)%string (sh_run command sh))
  | CannotStart => (Raise (FileNotFoundError "auto-editor"), sh_run command sh)
  end.


(** The loop shared by lines 85-91 and lines 207-213:
    [for video in videos: if not os.path.isfile(video): continue; ...
     method(video_path, video_name)]. *)
Fixpoint for_each_video
    (method : string -> string -> Shell -> Result unit * Shell)
    (videos : list string) (sh : Shell) : Result unit * Shell :=
  match videos with
  | [] => (Ok tt, sh)
  | video :: rest =>
      if negb (isfile video) then for_each_video method rest sh
      else
        let video_path := video in
        let video_name := split_first "." (basename video_path) in
        match method video_path video_name sh with
        | (Ok _, sh') => for_each_video method rest sh'
        | (Raise e, sh') => (Raise e, sh')
        end
  end.

(** [generate_loud_map_for_each_video_in_folder], lines 77-91. *)
Definition generate_loud_map_for_each_video_in_folder (self : RemoveSilence)
    (sh : Shell) : Result unit * Shell :=
  let video_files := get_video_files (videos_folder self) in
  for_each_video (generate_video_loud_map self) (sorted video_files)
    (sh_makedirs (loud_maps_folder self) sh).


End WithTools.

(** The command lines the two loops issue for one video. *)
Definition loud_map_command (self : RemoveSilence) (video : string)
  : list string :=
  [ "auto-editor"; video; "--export-as-json"; "--margin"; margin self;
    "--output-file";
    loud_map_path self (split_first "." (basename video)) ].

Definition preview_path (self : RemoveSilence) (video_name : string) : string :=
  os_path_join (loud_maps_folder self)
    (video_name ++ loud_video_preview_sufix self)%string.

Definition preview_command (self : RemoveSilence) (video : string)
  : list string :=
  [ "auto-editor"; video; "--margin"; margin self; "--output-file";
    preview_path self (split_first "." (basename video)); "--no-open" ].

(** ** Joining the previews *)

Definition newline : string := String "010" EmptyString.

(** What one call of [join_all_preview_videos] did. *)
Record JoinRun := mkJoinRun {
  final_removed     : bool;
  concat_inputs     : list string;
  list_file_path    : string;
  list_file_text    : string;
  ffmpeg_input      : string;
  ffmpeg_output     : string
}.

(** The loud-maps folder is given by its listing; a path lies in it when
    it is the folder joined with a listed name. *)
Definition names_path (self : RemoveSilence) (path name : string) : bool :=
  String.eqb (os_path_join (loud_maps_folder self) name) path.

(** The listing once [os.remove(self.preview_final_video)] was called,
    if that file was there (lines 220-221). *)
Definition without_final (self : RemoveSilence) (listing : list string)
  : list string :=
  if existsb (names_path self (preview_final_video self)) listing
  then filter (fun n => negb (names_path self (preview_final_video self) n))
         listing
  else listing.

(** The list built at lines 224-227. *)
Definition preview_videos (self : RemoveSilence) (listing : list string)
  : list string :=
  map (os_path_join (loud_maps_folder self))
    (filter (ends_with (loud_video_preview_sufix self))
       (sorted (without_final self listing))).

(** [join_all_preview_videos], lines 215-239.  [ffmpeg] tells how the
    concat command ends: [None], or the error output of a failed run. *)
Definition join_all_preview_videos (ffmpeg : string -> string -> option string)
    (self : RemoveSilence) (listing : list string)
  : option string * JoinRun :=
  let removed :=
    existsb (names_path self (preview_final_video self)) listing in
  let videos := preview_videos self listing in
  let text :=
    String.concat ""
      (map (fun video => ("file '" ++ video ++ "'" ++ newline)%string) videos) in
  (ffmpeg (preview_videos_list_file self) (preview_final_video self),
   mkJoinRun removed videos (preview_videos_list_file self) text
     (preview_videos_list_file self) (preview_final_video self)).

(* ------------------------------------------------------------------ *)
(** ** The orchestrator and the entry point                            *)
(* ------------------------------------------------------------------ *)

(** What an orchestrator method can raise. *)
Inductive Failure :=
| InFeature (e : Exn)
| NoneAttribute (attr : string)
| NoneAsPath
| Collaborator (who : string).

Inductive Outcome (A : Type) :=
| Done (a : A)
| Failed (f : Failure).
Arguments Failed {A} f.

(** [PreprocessVideos] (features/preprocess_videos.py is not among the
    sources): the one attribute the orchestrator reads. *)
Record PreprocessVideos := mkPreprocessVideos {
  preprocessed_folder : string
}.

(** The [RemoveSilence] object as the orchestrator holds it: built on
    the timeline, or on [None] when no timeline was created. *)
Inductive FeatureRef :=
| OnTimeline (feat : RemoveSilence)
| OnNone (folder : string).

(** The calls that leave the orchestrator for code that is not among
    the sources, in order. *)
Inductive Event :=
| NewPreprocessVideos (input : string)
| PreprocessAllVideos
| NewTimeline (folder : option string)
| ConcatenateVideoFiles (folder : option string)
| GenerateFinalPreview
| GenerateSubtitles (folder video : option string)
| GenerateFcpxmlFile.

(** The attributes of an [Orchestrator] ([__init__], lines 17-30) and
    the calls it has made. *)
Record Orch := mkOrch {
  oa_args                : Args;
  oa_input_folder        : option string;
  oa_input_video         : option string;
  oa_subtitles_video     : option string;
  oa_preprocess_feat     : option PreprocessVideos;
  oa_remove_silence_feat : option FeatureRef;
  oa_timeline            : option Timeline;
  oa_events               : list Event
}.

(** [Orchestrator()] followed by [parse_arguments()]. *)
Definition Orchestrator_init (a : Args) : Orch :=
  mkOrch a None None None None None None [].

Definition with_event (ev : Event) (o : Orch) : Orch :=
  mkOrch (oa_args o) (oa_input_folder o) (oa_input_video o)
    (oa_subtitles_video o) (oa_preprocess_feat o) (oa_remove_silence_feat o)
    (oa_timeline o) (oa_events o ++ [ev]).

Definition with_preprocess_feat (p : PreprocessVideos) (o : Orch) : Orch :=
  mkOrch (oa_args o) (oa_input_folder o) (oa_input_video o)
    (oa_subtitles_video o) (Some p) (oa_remove_silence_feat o)
    (oa_timeline o) (oa_events o).

Definition with_input (folder : string) (video : option string) (o : Orch)
  : Orch :=
  mkOrch (oa_args o) (Some folder) video
    (oa_subtitles_video o) (oa_preprocess_feat o) (oa_remove_silence_feat o)
    (oa_timeline o) (oa_events o).

Definition with_subtitles_video (video : option string) (o : Orch) : Orch :=
  mkOrch (oa_args o) (oa_input_folder o) (oa_input_video o)
    video (oa_preprocess_feat o) (oa_remove_silence_feat o)
    (oa_timeline o) (oa_events o).

Definition with_orch_timeline (t : option Timeline) (o : Orch) : Orch :=
  mkOrch (oa_args o) (oa_input_folder o) (oa_input_video o)
    (oa_subtitles_video o) (oa_preprocess_feat o) (oa_remove_silence_feat o)
    t (oa_events o).

Definition with_feature (f : option FeatureRef) (o : Orch) : Orch :=
  mkOrch (oa_args o) (oa_input_folder o) (oa_input_video o)
    (oa_subtitles_video o) (oa_preprocess_feat o) f
    (oa_timeline o) (oa_events o).

(** [self.preview_final_video] of a feature; it depends on the folder
    the feature was built on only. *)
Definition feature_preview_final_video (f : FeatureRef) : string :=
  match f with
  | OnTimeline feat => preview_final_video feat
  | OnNone folder =>
      os_path_join (os_path_join folder "remove_silence") "final_preview.mp4"
  end.

Definition of_result {A} (r : Result A) : Outcome A :=
  match r with
  | Ok a => Done a
  | Raise e => Failed (InFeature e)
  end.

Section WithFeatures.

Variable fs : string -> File.
Variable other_method : Method -> M unit.

(** The code that is not among the sources, by what it returns or
    raises: the constructors and methods of [PreprocessVideos],
    [Timeline], [Concatenate] and [GenerateSubtitles], and
    [generate_final_preview_video], which only drives external tools. *)
Variable new_PreprocessVideos : string -> Outcome PreprocessVideos.
Variable preprocess_all_videos_in_folder : PreprocessVideos -> Outcome unit.
Variable new_Timeline : option string -> Outcome Timeline.
Variable concatenate_video_files :
  option Timeline -> option string -> Outcome (option Timeline).
Variable generate_final_preview_video : FeatureRef -> Outcome unit.
Variable generate_subtitles : option string -> option string -> Outcome unit.
Variable generate_fcpxml_file : Timeline -> Outcome unit.

(** [preprocess_videos], lines 48-59. *)
Definition preprocess_videos (o : Orch) : Outcome unit * Orch :=
  if just_subtitles (oa_args o) then (Done tt, o)
  else if skip_preprocess (oa_args o) then (Done tt, o)
  else if already_preprocessed (oa_args o) then
    let o1 := with_event (NewPreprocessVideos (input (oa_args o))) o in
    match new_PreprocessVideos (input (oa_args o)) with
    | Done p => (Done tt, with_preprocess_feat p o1)
    | Failed f => (Failed f, o1)
    end
  else
    match oa_preprocess_feat o with
    | None => (Failed (NoneAttribute "preprocess_all_videos_in_folder"), o)
    | Some p =>
        (preprocess_all_videos_in_folder p, with_event PreprocessAllVideos o)
    end.

(** [determine_input_folder], lines 61-70. *)
Definition determine_input_folder (o : Orch) : Outcome unit * Orch :=
  if just_subtitles (oa_args o) then
    (Done tt,
     with_input (dirname (input (oa_args o))) (Some (input (oa_args o))) o)
  else if already_preprocessed (oa_args o) then
    match oa_preprocess_feat o with
    | None => (Failed (NoneAttribute "preprocessed_folder"), o)
    | Some p => (Done tt, with_input (preprocessed_folder p) (oa_input_video o) o)
    end
  else (Done tt, with_input (input (oa_args o)) (oa_input_video o) o).

(** [create_timeline], lines 72-78. *)
Definition create_timeline (o : Orch) : Outcome unit * Orch :=
  if just_subtitles (oa_args o) then (Done tt, o)
  else
    let o1 := with_event (NewTimeline (oa_input_folder o)) o in
    match new_Timeline (oa_input_folder o) with
    | Done t => (Done tt, with_orch_timeline (Some t) o1)
    | Failed f => (Failed f, o1)
    end.

(** [concatenate_files], lines 80-87. *)
Definition concatenate_files (o : Orch) : Outcome unit * Orch :=
  if just_subtitles (oa_args o) then (Done tt, o)
  else
    let o1 := with_event (ConcatenateVideoFiles (oa_input_folder o)) o in
    match concatenate_video_files (oa_timeline o) (oa_input_folder o) with
    | Done t => (Done tt, with_orch_timeline t o1)
    | Failed f => (Failed f, o1)
    end.

(** [remove_silence], lines 89-96, on any orchestrator.  With a
    timeline and an input folder at hand it is the step modelled by
    [Orchestrator_remove_silence]. *)
Definition remove_silence (o : Orch) : Outcome unit * Orch :=
  if just_subtitles (oa_args o) then (Done tt, o)
  else
    match oa_input_folder o, oa_timeline o with
    | None, _ => (Failed NoneAsPath, o)
    | Some folder, Some t =>
        let (r, o') :=
          Orchestrator_remove_silence fs other_method
            (mkOrchestrator (oa_args o) folder t None) in
        (of_result r,
         with_feature (option_map OnTimeline (remove_silence_feat o'))
           (with_orch_timeline (Some (o_timeline o')) o))
    | Some folder, None =>
        match getattr "remove_silence_from_videos" with
        | None =>
            (Failed (InFeature (AttributeError "RemoveSilence"
                                  "remove_silence_from_videos")),
             with_feature (Some (OnNone folder)) o)
        | Some _ =>
            (Failed (NoneAttribute "video_assets_refs"),
             with_feature (Some (OnNone folder)) o)
        end
    end.

(** [determine_subtitles_video], lines 108-116. *)
Definition determine_subtitles_video (o : Orch) : Outcome unit * Orch :=
  if just_subtitles (oa_args o) then
    (Done tt, with_subtitles_video (oa_input_video o) o)
  else
    match oa_remove_silence_feat o with
    | None => (Failed (NoneAttribute "preview_final_video"), o)
    | Some f =>
        (Done tt, with_subtitles_video (Some (feature_preview_final_video f)) o)
    end.

(** [add_subtitles], lines 118-134. *)
Definition add_subtitles (o : Orch) : Outcome unit * Orch :=
  if negb (skip_jcut (oa_args o)) then (Done tt, o)
  else if skip_subtitles (oa_args o) then (Done tt, o)
  else
    let preview :=
      if negb (just_subtitles (oa_args o)) then
        match oa_remove_silence_feat o with
        | None => (Failed (NoneAttribute "generate_final_preview_video"), o)
        | Some f =>
            (generate_final_preview_video f, with_event GenerateFinalPreview o)
        end
      else (Done tt, o) in
    match preview with
    | (Failed f, o1) => (Failed f, o1)
    | (Done _, o1) =>
        (generate_subtitles (oa_input_folder o1) (oa_subtitles_video o1),
         with_event
           (GenerateSubtitles (oa_input_folder o1) (oa_subtitles_video o1)) o1)
    end.

(** [generate_fcpxml_file], lines 136-142. *)
Definition generate_fcpxml (o : Orch) : Outcome unit * Orch :=
  if just_subtitles (oa_args o) then (Done tt, o)
  else
    match oa_timeline o with
    | None => (Failed (NoneAttribute "generate_fcpxml_file"), o)
    | Some t => (generate_fcpxml_file t, with_event GenerateFcpxmlFile o)
    end.

(** One statement after another. *)
Definition and_then (first next : Orch -> Outcome unit * Orch) (o : Orch)
  : Outcome unit * Orch :=
  match first o with
  | (Done _, o') => next o'
  | (Failed f, o') => (Failed f, o')
  end.

(** [main] of [__main__.py], lines 7-34, on the parsed command line. *)
Definition main (a : Args) : Outcome unit * Orch :=
  and_then preprocess_videos
    (and_then determine_input_folder
       (and_then create_timeline
          (and_then concatenate_files
             (and_then remove_silence
                (and_then determine_subtitles_video
                   (and_then add_subtitles generate_fcpxml))))))
    (Orchestrator_init a).

End WithFeatures.

(** A folder with two video files and a directory, and an auto-editor
    that fails on one of the files. *)
Definition folder_videos : string -> list string :=
  fun _ => ["videos/b.mp4"; "videos/a.x.mp4"; "videos/dir"].

Definition not_dir (p : string) : bool := negb (String.eqb p "videos/dir").


Definition not_installed (command : list string) : ToolResult := CannotStart.

Definition empty_shell : Shell := mkShell [] [] [].

(** A loud-maps folder after a first complete run. *)
Definition folder_listing : list string :=
  [ "b_preview.mp4"; "videos.txt"; "final_preview.mp4"; "a_preview.mp4";
    "a_loud_map.json" ].

(** Collaborators for concrete runs: every constructor and method
    outside the sources succeeds. *)
Definition fine_PreprocessVideos (input : string) : Outcome PreprocessVideos :=
  Done (mkPreprocessVideos (input ++ "/preprocessed")%string).

Definition fine_Timeline (folder : option string) : Outcome Timeline :=
  Done (mkTimeline [] [] 0 []).

Definition fine_concatenate (t : option Timeline) (folder : option string)
  : Outcome (option Timeline) :=
  Done (option_map (fun _ => two_assets_timeline) t).

Definition fine_unit {A} (x : A) : Outcome unit := Done tt.

Definition fine_subtitles (folder video : option string) : Outcome unit :=
  Done tt.

Definition fine_main (a : Args) : Outcome unit * Orch :=
  main two_assets_files (fun _ => ret tt) fine_PreprocessVideos fine_unit
    fine_Timeline fine_concatenate fine_unit fine_subtitles fine_unit a.

(** The events that belong to the steps before [remove_silence]. *)
Definition early_event (ev : Event) : bool :=
  match ev with
  | GenerateFinalPreview | GenerateSubtitles _ _ | GenerateFcpxmlFile => false
  | _ => true
  end.

(** "No sub-clip of duration 0 is emitted for the asset." *)
Definition no_zero_duration_clip (fs : string -> File) (ref : string)
    (self : RemoveSilence) : Prop :=
  forall site c, In (site, c) (sub_clips fs ref self) -> num_frames c <> 0.

(** The statements of [main] before [orchestrator.remove_silence()]
    (__main__.py, lines 14-24). *)
Definition steps_before_remove_silence
    (new_PreprocessVideos : string -> Outcome PreprocessVideos)
    (preprocess_all_videos_in_folder : PreprocessVideos -> Outcome unit)
    (new_Timeline : option string -> Outcome Timeline)
    (concatenate_video_files :
       option Timeline -> option string -> Outcome (option Timeline))
  : Orch -> Outcome unit * Orch :=
  and_then (preprocess_videos new_PreprocessVideos
              preprocess_all_videos_in_folder)
    (and_then determine_input_folder
       (and_then (create_timeline new_Timeline)
          (concatenate_files concatenate_video_files))).

(** "The run ends with the attribute error of the remove-silence step." *)
Definition ends_in_remove_silence_step (r : Outcome unit * Orch) : Prop :=
  fst r = Failed (InFeature (AttributeError "RemoveSilence"
                               "remove_silence_from_videos")).

(** The [RemoveSilence] object built on what the orchestrator holds. *)
Definition feature_on (t : option Timeline) (folder : string) : FeatureRef :=
  match t with
  | Some tl => OnTimeline (RemoveSilence_init tl folder)
  | None => OnNone folder
  end.

(* ------------------------------------------------------------------ *)
(** ** The inner loop in closed form                                   *)
(* ------------------------------------------------------------------ *)

Unset Implicit Arguments.

Lemma emit_nil (self : RemoveSilence) :
  with_timeline (tl_emit []) self = self.
Proof.
  destruct self as [t ? ? ? ? ? ? ? ?]; destruct t as [r cs d log].
  unfold with_timeline, tl_emit; simpl.
  now rewrite !app_nil_r.
Qed.

Lemma emit_app (a b : list (Site * ClipItem)) (self : RemoveSilence) :
  with_timeline (tl_emit b) (with_timeline (tl_emit a) self)
  = with_timeline (tl_emit (a ++ b)) self.
Proof.
  unfold with_timeline, tl_emit; simpl.
  now rewrite !map_app, !app_assoc.
Qed.

Lemma loud_part_body_run base tb pvd p l self :
  previous_loud_clip_offset l = previous_loud_clip_start l ->
  run (loud_part_body base tb pvd p l) self =
  (Ok (mkLocals (lp_offset p) (lp_offset p) (lp_dur p)),
   with_timeline
     (tl_emit (loop_segments base tb pvd
                 (previous_loud_clip_start l + previous_loud_clip_duration l)
                 [p]))
     self).
Proof.
  intros Hinv.
  unfold loud_part_body, run, bind, add_clip_to_timeline, ret.
  set (cursor := previous_loud_clip_start l + previous_loud_clip_duration l).
  rewrite Hinv; fold cursor.
  assert (Hoff : cursor + (lp_offset p - cursor) = lp_offset p) by lia.
  rewrite Hoff.
  cbn [loop_segments].
  destruct (Z.ltb_spec 0 (lp_offset p - cursor)) as [Hgap | Hgap];
    destruct (Z.ltb_spec cursor (lp_offset p)) as [Hlt | Hge]; try lia.
  - f_equal. unfold with_timeline, tl_append, tl_emit; simpl.
    now rewrite <- !app_assoc.
  - reflexivity.
Qed.

Lemma loud_parts_loop_run base tb pvd loud_map :
  forall l self,
    previous_loud_clip_offset l = previous_loud_clip_start l ->
    exists l',
      run (loud_parts_loop base tb pvd loud_map l) self =
      (Ok l',
       with_timeline
         (tl_emit (loop_segments base tb pvd
                     (previous_loud_clip_start l + previous_loud_clip_duration l)
                     loud_map))
         self)
      /\ previous_loud_clip_offset l' = previous_loud_clip_start l'
      /\ previous_loud_clip_start l' + previous_loud_clip_duration l'
         = end_cursor
             (previous_loud_clip_start l + previous_loud_clip_duration l)
             loud_map.
Proof.
  induction loud_map as [| p rest IH]; intros l self Hinv.
  - exists l. cbn [loud_parts_loop loop_segments end_cursor].
    unfold run, ret. now rewrite emit_nil.
  - cbn [loud_parts_loop].
    pose proof (loud_part_body_run base tb pvd p l self Hinv) as Hbody.
    unfold run in Hbody |- *. unfold bind at 1. rewrite Hbody.
    set (l1 := mkLocals (lp_offset p) (lp_offset p) (lp_dur p)).
    destruct (IH l1 (with_timeline
                       (tl_emit (loop_segments base tb pvd
                          (previous_loud_clip_start l
                           + previous_loud_clip_duration l) [p])) self)
                eq_refl)
      as (l' & Hrun & Hinv' & Hcur).
    exists l'. unfold run in Hrun. rewrite Hrun, emit_app.
    repeat split; auto.
    cbn [loop_segments]. simpl previous_loud_clip_start.
    simpl previous_loud_clip_duration.
    now rewrite <- app_assoc.
Qed.

Lemma last_silent_part_run base tb pvd D l self :
  previous_loud_clip_offset l = previous_loud_clip_start l ->
  run (last_silent_part base tb pvd D l) self =
  (Ok tt,
   with_timeline
     (tl_emit (last_segment base tb pvd
                 (previous_loud_clip_start l + previous_loud_clip_duration l)
                 D))
     self).
Proof.
  intros Hinv. unfold last_silent_part, last_segment, run.
  rewrite Hinv.
  destruct (_ <? D).
  - reflexivity.
  - unfold ret. now rewrite emit_nil.
Qed.

Lemma split_asset_clip_run base tb D loud_map self :
  run (split_asset_clip base tb D loud_map) self =
  (Ok tt,
   with_timeline
     (tl_emit (segments base tb (cumulative_duration self) D loud_map))
     self).
Proof.
  unfold split_asset_clip, run, bind at 1, get_self.
  destruct (loud_parts_loop_run base tb (cumulative_duration self) loud_map
              (mkLocals 0 0 0) self eq_refl) as (l' & Hrun & Hinv & Hcur).
  unfold run in Hrun. unfold bind. rewrite Hrun.
  pose proof (last_silent_part_run base tb (cumulative_duration self) D l'
                (with_timeline
                   (tl_emit (loop_segments base tb (cumulative_duration self)
                               (previous_loud_clip_start (mkLocals 0 0 0)
                                + previous_loud_clip_duration (mkLocals 0 0 0))
                               loud_map)) self) Hinv) as Hlast.
  unfold run in Hlast. rewrite Hlast, emit_app, Hcur.
  reflexivity.
Qed.

(* ------------------------------------------------------------------ *)
(** ** One asset                                                       *)
(* ------------------------------------------------------------------ *)

Lemma stored_video_asset_ref ref idx cs :
  forall c, stored_video_asset ref idx cs = Some c -> video_ref c = ref.
Proof.
  revert idx; induction cs as [| c0 rest IH]; intros idx c H; simpl in H.
  - discriminate.
  - destruct (String.eqb_spec (video_ref c0) ref) as [E | E].
    + destruct idx; [injection H as <-; exact E | eauto].
    + eauto.
Qed.

Lemma stored_video_asset_app ref cs more c :
  stored_video_asset ref 0 cs = Some c ->
  stored_video_asset ref 0 (cs ++ more) = Some c.
Proof.
  induction cs as [| c0 rest IH]; simpl; intros H.
  - discriminate.
  - destruct (String.eqb (video_ref c0) ref); auto.
Qed.

Lemma without_stored_video_asset_app ref cs more c :
  stored_video_asset ref 0 cs = Some c ->
  exists cs',
    without_stored_video_asset ref 0 cs = Some cs' /\
    without_stored_video_asset ref 0 (cs ++ more) = Some (cs' ++ more).
Proof.
  induction cs as [| c0 rest IH]; simpl; intros H.
  - discriminate.
  - destruct (String.eqb (video_ref c0) ref).
    + exists rest; auto.
    + destruct (IH H) as (cs' & H1 & H2).
      exists (c0 :: cs'). now rewrite H1, H2.
Qed.

(** A successful load is followed by a successful segmentation, whose
    final state is [asset_done]. *)
Lemma cut_clips_asset_ok fs self ref base j loud_map :
  loads fs self ref base j loud_map ->
  run (cut_clips_asset fs ref) self =
  (Ok tt,
   asset_done ref base
     (segments base (split_first "/" (json_timebase j))
        (cumulative_duration self) (num_frames base) loud_map)
     self).
Proof.
  intros (Hbase & Hfile & Hlayer).
  unfold cut_clips_asset, run.
  unfold bind at 1, get_stored_video_asset. rewrite Hbase.
  unfold bind at 1, get_loud_map. rewrite Hfile.
  destruct (json_v j) as [| lm layers]; [discriminate |].
  injection Hlayer as ->.
  unfold bind at 1. cbn [index0]. unfold ret at 1.
  unfold bind at 1.
  pose proof (split_asset_clip_run base (split_first "/" (json_timebase j))
                (num_frames base) loud_map self) as Hsplit.
  unfold run in Hsplit. rewrite Hsplit.
  unfold bind, remove_stored_video_asset.
  cbn [timeline with_cumulative_duration with_timeline clips tl_emit].
  destruct (without_stored_video_asset_app ref (clips (timeline self))
              (map snd (segments base (split_first "/" (json_timebase j))
                          (cumulative_duration self) (num_frames base)
                          loud_map)) base Hbase) as (cs' & Hdrop & Hdrop').
  rewrite Hdrop'.
  unfold asset_done, drop_base, with_timeline, with_cumulative_duration,
    tl_remove, tl_emit.
  cbn [timeline clips cumulative_duration video_assets_refs
       sequence_duration calls].
  now rewrite Hdrop'.
Qed.

(** When a load fails, the exception leaves the object as it was. *)
Lemma cut_clips_asset_cases fs self ref :
  (exists e, run (cut_clips_asset fs ref) self = (Raise e, self)) \/
  (exists base j loud_map, loads fs self ref base j loud_map).
Proof.
  unfold loads, cut_clips_asset, run.
  unfold bind at 1, get_stored_video_asset.
  destruct (stored_video_asset ref 0 (clips (timeline self))) as [base |]
    eqn:Hbase; [| left; eexists; reflexivity].
  unfold bind at 1, get_loud_map.
  destruct (fs (loud_map_path self (split_first "." (filename base))))
    as [| | j] eqn:Hfile;
    [left; eexists; reflexivity | left; eexists; reflexivity |].
  unfold bind at 1.
  destruct (json_v j) as [| lm layers] eqn:Hv; cbn [index0].
  - left. eexists; reflexivity.
  - right. exists base, j, lm. rewrite Hv. auto.
Qed.

(* ------------------------------------------------------------------ *)
(** ** What was emitted, read back from the call record                *)
(* ------------------------------------------------------------------ *)

Lemma skipn_length_app {A} (a b : list A) :
  skipn (List.length a) (a ++ b) = b.
Proof. induction a; simpl; auto. Qed.

Lemma emitted_app (a b : list Call) :
  emitted (a ++ b) = emitted a ++ emitted b.
Proof.
  induction a as [| x a IH]; simpl; auto.
  destruct x; simpl; now rewrite IH.
Qed.

Lemma emitted_call_of (segs : list (Site * ClipItem)) :
  emitted (map call_of segs) = segs.
Proof.
  induction segs as [| [s c] segs IH]; simpl; auto.
  now rewrite IH.
Qed.

Lemma asset_done_calls ref base segs self :
  calls (timeline (asset_done ref base segs self)) =
  calls (timeline self) ++ map call_of segs ++ [RemoveStoredVideoAsset ref 0].
Proof. simpl. now rewrite <- app_assoc. Qed.

Lemma sub_clips_loaded fs self ref base j loud_map :
  loads fs self ref base j loud_map ->
  sub_clips fs ref self =
  segments base (split_first "/" (json_timebase j))
    (cumulative_duration self) (num_frames base) loud_map.
Proof.
  intros H. unfold sub_clips, new_calls.
  rewrite (cut_clips_asset_ok _ _ _ _ _ _ H).
  cbn [snd]. rewrite asset_done_calls, skipn_length_app, emitted_app.
  rewrite emitted_call_of. simpl. now rewrite app_nil_r.
Qed.

Lemma sub_clips_cases fs self ref :
  sub_clips fs ref self = [] \/
  exists base j loud_map,
    loads fs self ref base j loud_map /\
    sub_clips fs ref self =
    segments base (split_first "/" (json_timebase j))
      (cumulative_duration self) (num_frames base) loud_map.
Proof.
  destruct (cut_clips_asset_cases fs self ref) as [[e He] | (b & j & lm & H)].
  - left. unfold sub_clips, new_calls. rewrite He. cbn [snd].
    rewrite <- (app_nil_r (calls (timeline self))) at 2.
    now rewrite skipn_length_app.
  - right. exists b, j, lm. split; auto using sub_clips_loaded.
Qed.

(* ------------------------------------------------------------------ *)
(** ** Properties of the emitted segments                              *)
(* ------------------------------------------------------------------ *)

Lemma in_loop_segments base tb pvd loud_map :
  forall cursor site c,
    In (site, c) (loop_segments base tb pvd cursor loud_map) ->
    (exists p, In p loud_map /\ site = LoudInterval
               /\ c = loud_clip base tb pvd p) \/
    (exists from upto, from < upto /\ site = GapBefore
                       /\ c = gap_clip base tb pvd from upto).
Proof.
  induction loud_map as [| p rest IH]; intros cursor site c Hin;
    cbn [loop_segments] in Hin.
  - destruct Hin.
  - apply in_app_or in Hin. destruct Hin as [Hgap | [Hloud | Hrest]].
    + destruct (Z.ltb_spec cursor (lp_offset p)); [| destruct Hgap].
      destruct Hgap as [Hgap | []]. injection Hgap as <- <-.
      right; eauto.
    + injection Hloud as <- <-. left. exists p. simpl; auto.
    + destruct (IH _ _ _ Hrest) as [(q & Hq & ? & ?) | ?]; auto.
      left. exists q. simpl; auto.
Qed.

Lemma in_segments base tb pvd D loud_map site c :
  In (site, c) (segments base tb pvd D loud_map) ->
  (exists p, In p loud_map /\ site = LoudInterval
             /\ c = loud_clip base tb pvd p) \/
  (exists from upto, from < upto /\ (site = GapBefore \/ site = GapAfter)
                     /\ c = gap_clip base tb pvd from upto).
Proof.
  unfold segments, last_segment. intros Hin.
  apply in_app_or in Hin. destruct Hin as [Hloop | Hlast].
  - destruct (in_loop_segments _ _ _ _ _ _ _ Hloop)
      as [? | (a & b & ? & ? & ?)]; auto.
    right. exists a, b. auto.
  - destruct (Z.ltb_spec (end_cursor 0 loud_map) D); [| destruct Hlast].
    destruct Hlast as [Hlast | []]. injection Hlast as <- <-.
    right. eauto 6.
Qed.

Lemma well_formed_from_cursor D loud_map :
  forall cursor,
    cursor <= D ->
    (forall p rest, loud_map = p :: rest -> cursor <= lp_offset p) ->
    well_formed D loud_map ->
    well_formed_from cursor D loud_map.
Proof.
  induction loud_map as [| p rest IH]; intros cursor HD Hhd [Hin Hasc].
  - exact HD.
  - cbn [well_formed_from]. split; [eapply Hhd; reflexivity |].
    inversion Hin as [| ? ? [Hp0 HpD] Hrest]; subst.
    apply IH; auto.
    + intros q rest' ->. destruct Hasc as (_ & Hend & _). exact Hend.
    + split; auto. destruct rest; [exact I | apply Hasc].
Qed.

Lemma well_formed_from_zero D loud_map :
  0 <= D -> well_formed D loud_map -> well_formed_from 0 D loud_map.
Proof.
  intros HD Hwf. apply well_formed_from_cursor; auto.
  intros p rest ->. destruct Hwf as [Hin _].
  inversion Hin as [| ? ? [Hp0 _] _]; subst. exact Hp0.
Qed.

Lemma chain_segments base tb pvd D loud_map :
  forall cursor,
    well_formed_from cursor D loud_map ->
    chain cursor
      (map snd (loop_segments base tb pvd cursor loud_map
                ++ last_segment base tb pvd (end_cursor cursor loud_map) D))
      D.
Proof.
  induction loud_map as [| p rest IH]; intros cursor Hwf;
    cbn [well_formed_from] in Hwf; cbn [loop_segments end_cursor].
  - unfold last_segment. simpl app.
    destruct (Z.ltb_spec cursor D); simpl; lia.
  - destruct Hwf as [Hle Hrest]. specialize (IH _ Hrest).
    destruct (Z.ltb_spec cursor (lp_offset p)); simpl.
    + split; [reflexivity |]. split; [lia |]. exact IH.
    + split; [lia |]. exact IH.
Qed.

Lemma chain_contiguous cs :
  forall from upto, chain from cs upto -> contiguous cs.
Proof.
  induction cs as [| c rest IH]; intros from upto H; [exact I |].
  destruct rest as [| c' rest']; [exact I |].
  destruct H as [_ H]. split.
  - destruct H as [H _]. now rewrite H.
  - eapply IH; exact H.
Qed.

Lemma chain_first from upto c rest :
  chain from (c :: rest) upto -> start c = from.
Proof. now intros [H _]. Qed.

Lemma chain_last cs :
  forall from upto front c,
    chain from cs upto -> cs = front ++ [c] -> start c + num_frames c = upto.
Proof.
  induction cs as [| c0 rest IH]; intros from upto front c H E.
  - now destruct front.
  - destruct H as [_ H]. destruct front as [| f front]; simpl in E.
    + injection E as Hc Hr. subst. exact H.
    + injection E as Hc Hr. subst. eapply IH; [exact H | reflexivity].
Qed.

Lemma chain_total cs :
  forall from upto, chain from cs upto -> total_frames cs = upto - from.
Proof.
  unfold total_frames.
  induction cs as [| c rest IH]; intros from upto H; simpl in *.
  - lia.
  - destruct H as [Hs H]. rewrite (IH _ _ H). lia.
Qed.

Lemma loud_of_loop_segments base tb pvd loud_map :
  forall cursor,
    map snd (filter is_loud_site (loop_segments base tb pvd cursor loud_map))
    = map (loud_clip base tb pvd) loud_map.
Proof.
  induction loud_map as [| p rest IH]; intros cursor; cbn [loop_segments].
  - reflexivity.
  - rewrite filter_app. destruct (cursor <? lp_offset p); simpl;
      now rewrite IH.
Qed.

Lemma loud_of_segments base tb pvd D loud_map :
  map snd (filter is_loud_site (segments base tb pvd D loud_map))
  = map (loud_clip base tb pvd) loud_map.
Proof.
  unfold segments. rewrite filter_app, map_app, loud_of_loop_segments.
  unfold last_segment. destruct (_ <? D); simpl; now rewrite ?app_nil_r.
Qed.

Lemma length_loop_segments base tb pvd loud_map :
  forall cursor,
    (List.length loud_map
     <= List.length (loop_segments base tb pvd cursor loud_map)
     <= 2 * List.length loud_map)%nat.
Proof.
  induction loud_map as [| p rest IH]; intros cursor; cbn [loop_segments].
  - simpl; lia.
  - specialize (IH (lp_offset p + lp_dur p)).
    rewrite length_app. destruct (cursor <? lp_offset p); simpl; lia.
Qed.

Lemma covers_segments base tb pvd D loud_map :
  forall cursor,
    covers cursor D loud_map ->
    loop_segments base tb pvd cursor loud_map
    ++ last_segment base tb pvd (end_cursor cursor loud_map) D
    = map (fun p => (LoudInterval, loud_clip base tb pvd p)) loud_map.
Proof.
  induction loud_map as [| p rest IH]; intros cursor H;
    cbn [covers] in H; cbn [loop_segments end_cursor map].
  - subst. unfold last_segment. now rewrite Z.ltb_irrefl.
  - destruct H as [-> H]. rewrite Z.ltb_irrefl. simpl.
    now rewrite (IH _ H).
Qed.

Lemma segments_offset base tb pvd D loud_map site c :
  In (site, c) (segments base tb pvd D loud_map) ->
  offset c = pvd + start c /\ video_ref c = video_ref base.
Proof.
  intros H.
  destruct (in_segments _ _ _ _ _ _ _ H)
    as [(p & _ & _ & ->) | (a & b & _ & _ & ->)]; simpl; auto.
Qed.

(* ------------------------------------------------------------------ *)
(** ** The loop over the assets                                        *)
(* ------------------------------------------------------------------ *)

Lemma for_each_cons {A} (x : A) (rest : list A) (body : A -> M unit) self :
  run (for_each (x :: rest) body) self =
  match run (body x) self with
  | (Ok _, self') => run (for_each rest body) self'
  | (Raise e, self') => (Raise e, self')
  end.
Proof. reflexivity. Qed.

Lemma for_each_app {A} (xs ys : list A) (body : A -> M unit) :
  forall self,
    run (for_each (xs ++ ys) body) self =
    match run (for_each xs body) self with
    | (Ok _, self') => run (for_each ys body) self'
    | (Raise e, self') => (Raise e, self')
    end.
Proof.
  induction xs as [| x xs IH]; intros self.
  - reflexivity.
  - simpl app. rewrite !for_each_cons.
    destruct (run (body x) self) as [[[] | e] self']; auto.
Qed.

Lemma stored_without_other r ref cs :
  r <> ref ->
  forall cs',
    without_stored_video_asset ref 0 cs = Some cs' ->
    stored_video_asset r 0 cs' = stored_video_asset r 0 cs.
Proof.
  intros Hne. induction cs as [| c rest IH]; simpl; intros cs' H.
  - discriminate.
  - destruct (String.eqb_spec (video_ref c) ref) as [E | E].
    + injection H as <-.
      destruct (String.eqb_spec (video_ref c) r); [congruence | reflexivity].
    + destruct (without_stored_video_asset ref 0 rest) as [rest' |];
        [| discriminate].
      injection H as <-. simpl. now rewrite (IH rest' eq_refl).
Qed.

Lemma stored_app_other r cs more :
  (forall c, In c more -> video_ref c <> r) ->
  stored_video_asset r 0 (cs ++ more) = stored_video_asset r 0 cs.
Proof.
  intros Hother. induction cs as [| c rest IH]; simpl.
  - induction more as [| m more IHm]; simpl; auto.
    destruct (String.eqb_spec (video_ref m) r) as [E | E].
    + exfalso. apply (Hother m); simpl; auto.
    + apply IHm. intros c Hc. apply Hother. simpl; auto.
  - now rewrite IH.
Qed.

Lemma base_duration_asset_done fs self ref base j loud_map r :
  loads fs self ref base j loud_map ->
  r <> ref ->
  base_duration
    (timeline
       (asset_done ref base
          (segments base (split_first "/" (json_timebase j))
             (cumulative_duration self) (num_frames base) loud_map)
          self)) r
  = base_duration (timeline self) r.
Proof.
  intros (Hbase & _ & _) Hne. unfold base_duration.
  cbn [asset_done timeline with_timeline with_cumulative_duration clips
       tl_remove tl_emit].
  set (segs := segments _ _ _ _ _).
  destruct (without_stored_video_asset_app ref (clips (timeline self))
              (map snd segs) base Hbase) as (cs' & Hdrop & Hdrop').
  unfold drop_base. rewrite Hdrop'.
  rewrite (stored_without_other r ref _ Hne _ Hdrop').
  rewrite stored_app_other; auto.
  intros c Hc. apply in_map_iff in Hc. destruct Hc as ([s c'] & <- & Hin).
  apply segments_offset in Hin. destruct Hin as [_ Href].
  simpl. rewrite Href, (stored_video_asset_ref _ _ _ _ Hbase). congruence.
Qed.

Lemma count_updates_app a b :
  count_updates (a ++ b) = (count_updates a + count_updates b)%nat.
Proof. unfold count_updates. now rewrite filter_app, length_app. Qed.

Lemma count_updates_call_of segs : count_updates (map call_of segs) = 0%nat.
Proof. induction segs as [| [s c] segs IH]; simpl; auto. Qed.

(** The invariant of the loop over the assets: no recomputation of the
    sequence duration, and every emitted clip sits at the sum of the
    base-clip durations of the assets before its own plus its in-point. *)
Lemma assets_loop fs refs :
  forall self,
    exists new,
      calls (timeline (snd (run (for_each refs (cut_clips_asset fs)) self)))
      = calls (timeline self) ++ new
      /\ count_updates new = 0%nat
      /\ sequence_duration
           (timeline (snd (run (for_each refs (cut_clips_asset fs)) self)))
         = sequence_duration (timeline self)
      /\ (forall s c, In (s, c) (emitted new) -> In (video_ref c) refs)
      /\ (NoDup refs ->
          forall pre ref post s c,
            refs = pre ++ ref :: post ->
            In (s, c) (emitted new) ->
            video_ref c = ref ->
            offset c =
            cumulative_duration self
            + sum_Z (map (base_duration (timeline self)) pre) + start c).
Proof.
  induction refs as [| r0 rest IH]; intros self.
  - exists []. simpl. rewrite app_nil_r.
    repeat split; auto; intros; contradiction.
  - rewrite for_each_cons.
    destruct (cut_clips_asset_cases fs self r0)
      as [[e He] | (base & j & lm & Hload)].
    + rewrite He. exists []. simpl. rewrite app_nil_r.
      repeat split; auto; intros; contradiction.
    + rewrite (cut_clips_asset_ok _ _ _ _ _ _ Hload).
      set (segs := segments base (split_first "/" (json_timebase j))
                     (cumulative_duration self) (num_frames base) lm).
      set (self1 := asset_done r0 base segs self).
      destruct (IH self1) as (new1 & Hcalls & Hupd & Hseq & Hrefs & Hoff).
      assert (Hsegref : forall s c, In (s, c) segs -> video_ref c = r0).
      { intros s c Hin. apply segments_offset in Hin.
        destruct Hin as [_ ->]. destruct Hload as (Hb & _).
        exact (stored_video_asset_ref _ _ _ _ Hb). }
      exists (map call_of segs ++ [RemoveStoredVideoAsset r0 0] ++ new1).
      split; [| split; [| split; [| split]]].
      * rewrite Hcalls. unfold self1. rewrite asset_done_calls.
        now rewrite <- !app_assoc.
      * rewrite !count_updates_app, count_updates_call_of, Hupd.
        reflexivity.
      * rewrite Hseq. reflexivity.
      * intros s c Hin. rewrite !emitted_app, emitted_call_of in Hin.
        apply in_app_or in Hin. destruct Hin as [Hin | Hin].
        -- left. symmetry. eauto.
        -- right. eauto.
      * intros Hnd pre ref post s c Hsplit Hin Href.
        inversion Hnd as [| ? ? Hnotin Hnd']; subst.
        specialize (Hoff Hnd').
        rewrite !emitted_app, emitted_call_of in Hin.
        apply in_app_or in Hin.
        destruct pre as [| r0' pre']; simpl in Hsplit;
          injection Hsplit as Hr0 Hrest; subst.
        -- destruct Hin as [Hin | Hin].
           ++ apply segments_offset in Hin. destruct Hin as [-> _].
              simpl. lia.
           ++ exfalso. apply Hnotin. eapply Hrefs. exact Hin.
        -- destruct Hin as [Hin | Hin].
           ++ exfalso. apply Hnotin. rewrite <- (Hsegref _ _ Hin).
              apply in_or_app. right. simpl; auto.
           ++ rewrite (Hoff pre' (video_ref c) post s c eq_refl Hin eq_refl).
              assert (Hmap : map (base_duration (timeline self1)) pre'
                             = map (base_duration (timeline self)) pre').
              { apply map_ext_in. intros r Hr.
                apply (base_duration_asset_done fs self r0' base j lm r Hload).
                intros ->. apply Hnotin. apply in_or_app. auto. }
              rewrite Hmap. simpl.
              unfold base_duration at 2. destruct Hload as (-> & _).
              lia.
Qed.

Lemma cut_clips_run fs self :
  run (cut_clips fs) self =
  match run (for_each (video_assets_refs (timeline self)) (cut_clips_asset fs))
          self with
  | (Ok _, self') => (Ok tt, with_timeline tl_update_duration self')
  | (Raise e, self') => (Raise e, self')
  end.
Proof.
  unfold cut_clips, run, bind, get_self, update_sequence_duration.
  destruct (for_each _ _ self) as [[[] | e] self']; reflexivity.
Qed.

(** The calls of a whole run: those of the loop over the assets, then
    one recomputation of the sequence duration if no asset failed. *)
Lemma cut_clips_new_calls fs self :
  exists new,
    calls (timeline (snd (run (for_each (video_assets_refs (timeline self))
                                 (cut_clips_asset fs)) self)))
    = calls (timeline self) ++ new
    /\ count_updates new = 0%nat
    /\ ((fst (run (cut_clips fs) self) = Ok tt
         /\ new_calls (cut_clips fs) self = new ++ [UpdateSequenceDuration])
        \/ ((exists e, fst (run (cut_clips fs) self) = Raise e)
            /\ new_calls (cut_clips fs) self = new)).
Proof.
  destruct (assets_loop fs (video_assets_refs (timeline self)) self)
    as (new & Hcalls & Hupd & _).
  exists new. split; [exact Hcalls |]. split; [exact Hupd |].
  unfold new_calls. rewrite cut_clips_run.
  destruct (run (for_each _ _) self) as [[[] | e] self'];
    cbn [fst snd] in *.
  - left. split; [reflexivity |].
    cbn [timeline with_timeline tl_update_duration calls].
    now rewrite Hcalls, <- app_assoc, skipn_length_app.
  - right. split; [eauto |].
    now rewrite Hcalls, skipn_length_app.
Qed.

Lemma cut_clips_emitted fs self :
  exists new,
    calls (timeline (snd (run (for_each (video_assets_refs (timeline self))
                                 (cut_clips_asset fs)) self)))
    = calls (timeline self) ++ new
    /\ emitted (new_calls (cut_clips fs) self) = emitted new.
Proof.
  destruct (cut_clips_new_calls fs self)
    as (new & Hcalls & _ & [[_ ->] | [_ ->]]); exists new; split; auto.
  rewrite emitted_app. simpl. now rewrite app_nil_r.
Qed.

(* ------------------------------------------------------------------ *)
(** ** Placement and coverage                                          *)
(* ------------------------------------------------------------------ *)

(** C1.  In a run of [cut_clips] on a fresh [RemoveSilence] object
    (cumulative duration 0) over distinct asset references, every
    sub-clip emitted for an asset, silent or loud, is placed at the sum
    of the base-clip durations of the assets processed before it plus
    its own source in-point.  This holds for every loud map, hence for
    the well-formed ones.  For two assets, the first of 100 frames with
    an empty loud map and the second of 80 frames with loud map
    [(0,80)], the second asset's only sub-clip is placed at 100. *)
Theorem placement_offset_correct :
  (forall fs self pre ref post site c,
      cumulative_duration self = 0 ->
      NoDup (video_assets_refs (timeline self)) ->
      video_assets_refs (timeline self) = pre ++ ref :: post ->
      In (site, c) (emitted (new_calls (cut_clips fs) self)) ->
      video_ref c = ref ->
      offset c = sum_Z (map (base_duration (timeline self)) pre) + start c)
  /\ filter (has_ref "r2")
       (emitted (new_calls (cut_clips two_assets_files)
                   (RemoveSilence_init two_assets_timeline "videos")))
     = [(LoudInterval, mkClip "r2" 80 0 100 "30" "second.mp4" [])].
Proof.
  split; [| vm_compute; reflexivity].
  intros fs self pre ref post site c Hzero Hnd Hrefs Hin Href.
  destruct (cut_clips_emitted fs self) as (new & Hcalls & Hem).
  rewrite Hem in Hin.
  destruct (assets_loop fs (video_assets_refs (timeline self)) self)
    as (new' & Hcalls' & _ & _ & _ & Hoff).
  rewrite Hcalls in Hcalls'. apply app_inv_head in Hcalls'. subst new'.
  rewrite (Hoff Hnd pre ref post site c Hrefs Hin Href), Hzero.
  lia.
Qed.

Lemma placement_offset_correct_witness :
  offset (mkClip "r2" 80 0 100 "30" "second.mp4" [])
  = sum_Z (map (base_duration two_assets_timeline) ["r1"])
    + start (mkClip "r2" 80 0 100 "30" "second.mp4" []).
Proof.
  apply (proj1 placement_offset_correct two_assets_files
           (RemoveSilence_init two_assets_timeline "videos")
           ["r1"] "r2" [] LoudInterval).
  - reflexivity.
  - repeat constructor; simpl; intuition discriminate.
  - reflexivity.
  - vm_compute. auto.
  - reflexivity.
Defined.

(** C2.  For an asset whose base clip has duration D (a frame count,
    so 0 <= D) and whose loud map is well-formed, the sub-clips emitted
    for it, in emission order, partition the asset's media: each ends
    where the next begins, the first begins at 0, the last ends at D and
    the durations add up to D. *)
Theorem sub_clips_partition fs self ref base j loud_map :
  loads fs self ref base j loud_map ->
  0 <= num_frames base ->
  well_formed (num_frames base) loud_map ->
  contiguous (map snd (sub_clips fs ref self))
  /\ (forall c rest,
         map snd (sub_clips fs ref self) = c :: rest -> start c = 0)
  /\ (forall front c,
         map snd (sub_clips fs ref self) = front ++ [c] ->
         start c + num_frames c = num_frames base)
  /\ total_frames (map snd (sub_clips fs ref self)) = num_frames base.
Proof.
  intros Hload HD Hwf.
  rewrite (sub_clips_loaded _ _ _ _ _ _ Hload).
  pose proof (chain_segments base (split_first "/" (json_timebase j))
                (cumulative_duration self) (num_frames base) loud_map 0
                (well_formed_from_zero _ _ HD Hwf)) as Hchain.
  fold (segments base (split_first "/" (json_timebase j))
          (cumulative_duration self) (num_frames base) loud_map) in Hchain.
  repeat split.
  - eapply chain_contiguous; exact Hchain.
  - intros c rest E. rewrite E in Hchain. eapply chain_first; exact Hchain.
  - intros front c E. eapply chain_last; [exact Hchain | exact E].
  - rewrite (chain_total _ _ _ Hchain). lia.
Qed.

Lemma sub_clips_partition_witness :
  total_frames
    (map snd (sub_clips (one_asset_files [mkLoud 10 20; mkLoud 50 10]) "r1"
                (one_asset 100)))
  = 100.
Proof.
  refine (proj2 (proj2 (proj2
    (sub_clips_partition (one_asset_files [mkLoud 10 20; mkLoud 50 10])
       (one_asset 100) "r1" (base_clip "r1" "clip.mp4" 100)
       (mkJson [[mkLoud 10 20; mkLoud 50 10]] "30/1")
       [mkLoud 10 20; mkLoud 50 10] _ _ _)))).
  - repeat split.
  - simpl; lia.
  - split.
    + repeat constructor; simpl; lia.
    + simpl; lia.
Defined.

(* ------------------------------------------------------------------ *)
(** ** Bookkeeping of durations                                        *)
(* ------------------------------------------------------------------ *)

(** C3, as stated, fails.  A run over two assets calls
    [update_sequence_duration] once, not twice; after the first asset
    the cached sequence duration is still the old one, and the base for
    the second asset (100) is the incremented counter, not the sum of
    the surviving clip durations (180). *)
Lemma recomputed_once_per_asset_counterexample :
  ~ recomputed_once_per_asset two_assets_files
      (RemoveSilence_init two_assets_timeline "videos")
  /\ count_updates
       (new_calls (cut_clips two_assets_files)
          (RemoveSilence_init two_assets_timeline "videos")) = 1%nat
  /\ count_updates
       (new_calls (cut_clips_asset two_assets_files "r1")
          (RemoveSilence_init two_assets_timeline "videos")) = 0%nat
  /\ cumulative_duration
       (snd (run (cut_clips_asset two_assets_files "r1")
               (RemoveSilence_init two_assets_timeline "videos"))) = 100
  /\ total_frames
       (clips (timeline
          (snd (run (cut_clips_asset two_assets_files "r1")
                  (RemoveSilence_init two_assets_timeline "videos"))))) = 180.
Proof.
  split; [| vm_compute; auto].
  unfold recomputed_once_per_asset. vm_compute. discriminate.
Qed.

(** C3, amended.  A run of [cut_clips] that completes recomputes the
    sequence total duration (the sum of the durations of all surviving
    clips) exactly once, as the last call the timeline receives, after
    all assets were segmented; segmenting one asset never recomputes it.
    The cumulative base used for the next asset's placement offsets is
    kept by incremental arithmetic: segmenting an asset adds its
    base-clip duration to it. *)
Theorem recomputed_once_per_run fs :
  (forall self,
      fst (run (cut_clips fs) self) = Ok tt ->
      exists body,
        new_calls (cut_clips fs) self = body ++ [UpdateSequenceDuration]
        /\ count_updates body = 0%nat
        /\ count_updates (new_calls (cut_clips fs) self) = 1%nat
        /\ sequence_duration (timeline (snd (run (cut_clips fs) self)))
           = total_frames (clips (timeline (snd (run (cut_clips fs) self)))))
  /\ (forall self ref base j loud_map,
         loads fs self ref base j loud_map ->
         count_updates (new_calls (cut_clips_asset fs ref) self) = 0%nat
         /\ sequence_duration
              (timeline (snd (run (cut_clips_asset fs ref) self)))
            = sequence_duration (timeline self)
         /\ cumulative_duration (snd (run (cut_clips_asset fs ref) self))
            = cumulative_duration self + num_frames base).
Proof.
  split.
  - intros self Hok.
    destruct (cut_clips_new_calls fs self)
      as (body & _ & Hupd & [[_ Hnew] | [[e He] _]]);
      [| rewrite He in Hok; discriminate].
    exists body. rewrite Hnew. repeat split; auto.
    + rewrite count_updates_app, Hupd. reflexivity.
    + rewrite cut_clips_run in Hok |- *.
      destruct (run (for_each _ _) self) as [[[] | e] self'];
        [reflexivity | discriminate].
  - intros self ref base j loud_map Hload.
    unfold new_calls. rewrite (cut_clips_asset_ok _ _ _ _ _ _ Hload).
    cbn [snd]. rewrite asset_done_calls, skipn_length_app.
    rewrite count_updates_app, count_updates_call_of.
    repeat split.
Qed.

Lemma recomputed_once_per_run_witness :
  count_updates
    (new_calls (cut_clips two_assets_files)
       (RemoveSilence_init two_assets_timeline "videos")) = 1%nat
  /\ cumulative_duration
       (snd (run (cut_clips_asset two_assets_files "r1")
               (RemoveSilence_init two_assets_timeline "videos")))
     = 0 + 100.
Proof.
  split.
  - destruct (proj1 (recomputed_once_per_run two_assets_files)
                (RemoveSilence_init two_assets_timeline "videos") eq_refl)
      as (body & _ & _ & H & _).
    exact H.
  - refine (proj2 (proj2
      (proj2 (recomputed_once_per_run two_assets_files)
         (RemoveSilence_init two_assets_timeline "videos") "r1"
         (base_clip "r1" "first.mp4" 100) (mkJson [[]] "30/1") [] _))).
    repeat split.
Defined.

(* ------------------------------------------------------------------ *)
(** ** Failure to load a loud map                                      *)
(* ------------------------------------------------------------------ *)

(** C4.  If, when an asset's turn comes, its loud map cannot be loaded
    (the file is absent or unreadable), [get_loud_map] raises before
    anything was changed for that asset: no sub-clip is emitted, the
    base clip is still on the timeline, the whole object is as it was
    before the asset's turn, the run ends with that exception, and the
    sequence total duration is not recomputed. *)
Theorem failed_load_leaves_asset_untouched fs self pre ref post self1 base :
  video_assets_refs (timeline self) = pre ++ ref :: post ->
  run (for_each pre (cut_clips_asset fs)) self = (Ok tt, self1) ->
  stored_video_asset ref 0 (clips (timeline self1)) = Some base ->
  (forall j,
      fs (loud_map_path self1 (split_first "." (filename base))) <> Json j) ->
  let path := loud_map_path self1 (split_first "." (filename base)) in
  let e := load_error (fs path) path in
  run (cut_clips_asset fs ref) self1 = (Raise e, self1)
  /\ sub_clips fs ref self1 = []
  /\ run (cut_clips fs) self = (Raise e, self1)
  /\ stored_video_asset ref 0
       (clips (timeline (snd (run (cut_clips fs) self)))) = Some base
  /\ count_updates (new_calls (cut_clips fs) self) = 0%nat
  /\ sequence_duration (timeline (snd (run (cut_clips fs) self)))
     = sequence_duration (timeline self).
Proof.
  intros Hrefs Hpre Hbase Hfile path e.
  assert (Hstep : run (cut_clips_asset fs ref) self1 = (Raise e, self1)).
  { unfold cut_clips_asset, run.
    unfold bind at 1, get_stored_video_asset. rewrite Hbase.
    unfold bind at 1, get_loud_map. fold path. subst e.
    destruct (fs path) as [| | j] eqn:Hf; try reflexivity.
    exfalso. apply (Hfile j). exact Hf. }
  assert (Hrun : run (cut_clips fs) self = (Raise e, self1)).
  { rewrite cut_clips_run, Hrefs, for_each_app, Hpre, for_each_cons, Hstep.
    reflexivity. }
  destruct (assets_loop fs pre self) as (new & Hcalls & Hupd & Hseq & _).
  rewrite Hpre in Hcalls, Hseq. cbn [snd] in Hcalls, Hseq.
  repeat split; auto.
  - unfold sub_clips, new_calls. rewrite Hstep. cbn [snd].
    rewrite <- (app_nil_r (calls (timeline self1))) at 2.
    now rewrite skipn_length_app.
  - rewrite Hrun. exact Hbase.
  - unfold new_calls. rewrite Hrun. cbn [snd].
    now rewrite Hcalls, skipn_length_app.
  - rewrite Hrun. exact Hseq.
Qed.

Lemma failed_load_leaves_asset_untouched_witness :
  run (cut_clips first_file_only)
    (RemoveSilence_init two_assets_timeline "videos")
  = (Raise (FileNotFoundError "videos/remove_silence/second_loud_map.json"),
     snd (run (for_each ["r1"] (cut_clips_asset first_file_only))
            (RemoveSilence_init two_assets_timeline "videos"))).
Proof.
  refine (proj1 (proj2 (proj2
    (failed_load_leaves_asset_untouched first_file_only
       (RemoveSilence_init two_assets_timeline "videos")
       ["r1"] "r2" []
       (snd (run (for_each ["r1"] (cut_clips_asset first_file_only))
               (RemoveSilence_init two_assets_timeline "videos")))
       (base_clip "r2" "second.mp4" 80) _ _ _ _)))).
  - reflexivity.
  - reflexivity.
  - reflexivity.
  - intros j. vm_compute. discriminate.
Defined.

(* ------------------------------------------------------------------ *)
(** ** The orchestrator step                                           *)
(* ------------------------------------------------------------------ *)

(** The step on an orchestrator that holds a timeline and an input
    folder: without [--just-subtitles] it builds a [RemoveSilence]
    object and looks up [remove_silence_from_videos] on it.  The class
    defines no such method (the segmentation is [cut_clips];
    [remove_silence] does nothing), so the step raises an attribute
    error, and the timeline is as it was. *)
Lemma remove_silence_step_fails fs other_method o :
  just_subtitles (args o) = false ->
  assoc "remove_silence_from_videos" RemoveSilence_class = None
  /\ getattr "remove_silence_from_videos" = None
  /\ getattr "cut_clips" = Some (Bound m_cut_clips)
  /\ call_method fs other_method m_cut_clips = cut_clips fs
  /\ (forall self,
         run (call_method fs other_method m_remove_silence) self
         = (Ok tt, self))
  /\ Orchestrator_remove_silence fs other_method o
     = (Raise (AttributeError "RemoveSilence" "remove_silence_from_videos"),
        mkOrchestrator (args o) (input_folder o) (o_timeline o)
          (Some (RemoveSilence_init (o_timeline o) (input_folder o))))
  /\ o_timeline (snd (Orchestrator_remove_silence fs other_method o))
     = o_timeline o.
Proof.
  intros Hflag.
  assert (Hstep : Orchestrator_remove_silence fs other_method o
     = (Raise (AttributeError "RemoveSilence" "remove_silence_from_videos"),
        mkOrchestrator (args o) (input_folder o) (o_timeline o)
          (Some (RemoveSilence_init (o_timeline o) (input_folder o))))).
  { unfold Orchestrator_remove_silence. rewrite Hflag. reflexivity. }
  repeat split; auto.
  rewrite Hstep. reflexivity.
Qed.

(* ------------------------------------------------------------------ *)
(** ** Scenarios and tags                                              *)
(* ------------------------------------------------------------------ *)

(** C6.  One asset of 100 frames, timebase 30/1, processed first, with
    loud map [(10,20),(50,10)]: five sub-clips are emitted, in the order
    (0,10,silent) (10,20,loud) (30,20,silent) (50,10,loud) (60,40,silent),
    each placed at its source in-point. *)
Theorem five_sub_clips :
  sub_clips (one_asset_files [mkLoud 10 20; mkLoud 50 10]) "r1"
    (one_asset 100)
  = [ (GapBefore,    mkClip "r1" 10 0 0 "30" "clip.mp4" silent_attrib);
      (LoudInterval, mkClip "r1" 20 10 10 "30" "clip.mp4" []);
      (GapBefore,    mkClip "r1" 20 30 30 "30" "clip.mp4" silent_attrib);
      (LoudInterval, mkClip "r1" 10 50 50 "30" "clip.mp4" []);
      (GapAfter,     mkClip "r1" 40 60 60 "30" "clip.mp4" silent_attrib) ]
  /\ map (fun sc => shape (snd sc))
       (sub_clips (one_asset_files [mkLoud 10 20; mkLoud 50 10]) "r1"
          (one_asset 100))
     = [ (0, 10, true); (10, 20, false); (30, 20, true); (50, 10, false);
         (60, 40, true) ]
  /\ Forall (fun sc => offset (snd sc) = start (snd sc))
       (sub_clips (one_asset_files [mkLoud 10 20; mkLoud 50 10]) "r1"
          (one_asset 100))
  /\ emitted (new_calls (cut_clips (one_asset_files
                                      [mkLoud 10 20; mkLoud 50 10]))
                (one_asset 100))
     = sub_clips (one_asset_files [mkLoud 10 20; mkLoud 50 10]) "r1"
         (one_asset 100).
Proof.
  assert (E : sub_clips (one_asset_files [mkLoud 10 20; mkLoud 50 10]) "r1"
                (one_asset 100)
    = [ (GapBefore,    mkClip "r1" 10 0 0 "30" "clip.mp4" silent_attrib);
        (LoudInterval, mkClip "r1" 20 10 10 "30" "clip.mp4" []);
        (GapBefore,    mkClip "r1" 20 30 30 "30" "clip.mp4" silent_attrib);
        (LoudInterval, mkClip "r1" 10 50 50 "30" "clip.mp4" []);
        (GapAfter,     mkClip "r1" 40 60 60 "30" "clip.mp4" silent_attrib) ])
    by (vm_compute; reflexivity).
  split; [exact E |]. rewrite E.
  split; [reflexivity |].
  split; [repeat constructor |].
  vm_compute. reflexivity.
Qed.

(** C7.  A sub-clip emitted for an asset carries the silent tag if and
    only if it was emitted from a gap, before a loud interval or after
    the last one; a sub-clip emitted for a loud interval carries no tag
    at all. *)
Theorem silent_tag_iff_gap fs self ref site c :
  In (site, c) (sub_clips fs ref self) ->
  (is_silent c = true <-> site = GapBefore \/ site = GapAfter)
  /\ (site = GapBefore \/ site = GapAfter -> custom_attrib c = silent_attrib)
  /\ (site = LoudInterval -> custom_attrib c = [] /\ is_silent c = false).
Proof.
  intros Hin.
  destruct (sub_clips_cases fs self ref) as [E | (b & j & lm & _ & E)];
    rewrite E in Hin; [destruct Hin |].
  destruct (in_segments _ _ _ _ _ _ _ Hin)
    as [(p & _ & -> & ->) | (a & z & _ & Hsite & ->)].
  - repeat split; try discriminate; auto;
      intros [H | H]; discriminate.
  - repeat split; auto; destruct Hsite; subst; discriminate.
Qed.

Lemma silent_tag_iff_gap_witness :
  is_silent (mkClip "r1" 40 60 60 "30" "clip.mp4" silent_attrib) = true
  <-> GapAfter = GapBefore \/ GapAfter = GapAfter.
Proof.
  refine (proj1
    (silent_tag_iff_gap (one_asset_files [mkLoud 10 20; mkLoud 50 10])
       (one_asset 100) "r1" GapAfter
       (mkClip "r1" 40 60 60 "30" "clip.mp4" silent_attrib) _)).
  vm_compute. auto 10.
Defined.

(* ------------------------------------------------------------------ *)
(** ** Gaps of no length, empty maps, malformed maps                   *)
(* ------------------------------------------------------------------ *)

Lemma new_calls_unchanged {A} (m : M A) self :
  calls (timeline (snd (run m self))) = calls (timeline self) ->
  new_calls m self = [].
Proof.
  intros H. unfold new_calls. rewrite H.
  rewrite <- (app_nil_r (calls (timeline self))) at 2.
  now rewrite skipn_length_app.
Qed.

(** A non-positive gap before a loud part is skipped: the loop body
    then emits the loud clip only. *)
Lemma loud_part_body_no_gap base tb pvd p l self :
  lp_offset p
  - (previous_loud_clip_start l + previous_loud_clip_duration l) <= 0 ->
  map fst (emitted (new_calls (loud_part_body base tb pvd p l) self))
  = [LoudInterval].
Proof.
  intros Hgap. unfold new_calls, loud_part_body, run, bind.
  destruct (Z.ltb_spec 0
              (lp_offset p
               - (previous_loud_clip_start l + previous_loud_clip_duration l)));
    [lia |].
  cbn [ret add_clip_to_timeline snd timeline with_timeline tl_append calls].
  rewrite skipn_length_app. reflexivity.
Qed.

Lemma split_asset_clip_emitted base tb D loud_map self :
  emitted (new_calls (split_asset_clip base tb D loud_map) self)
  = segments base tb (cumulative_duration self) D loud_map.
Proof.
  unfold new_calls. rewrite split_asset_clip_run.
  cbn [snd timeline with_timeline tl_emit calls].
  now rewrite skipn_length_app, emitted_call_of.
Qed.

Lemma length_segments base tb pvd D loud_map :
  (List.length loud_map
   <= List.length (segments base tb pvd D loud_map)
   <= 2 * List.length loud_map + 1)%nat.
Proof.
  unfold segments, last_segment. rewrite length_app.
  pose proof (length_loop_segments base tb pvd loud_map 0).
  destruct (_ <? D); simpl; lia.
Qed.

Lemma end_cursor_last front p :
  forall cursor, end_cursor cursor (front ++ [p]) = lp_offset p + lp_dur p.
Proof. induction front as [| q front IH]; intros cursor; simpl; auto. Qed.

Lemma gap_after_is_last base tb pvd D loud_map c :
  In (GapAfter, c) (segments base tb pvd D loud_map) ->
  end_cursor 0 loud_map < D.
Proof.
  unfold segments, last_segment. intros Hin.
  apply in_app_or in Hin. destruct Hin as [Hin | Hin].
  - destruct (in_loop_segments _ _ _ _ _ _ _ Hin)
      as [(? & _ & ? & _) | (? & ? & _ & ? & _)]; discriminate.
  - destruct (Z.ltb_spec (end_cursor 0 loud_map) D); [assumption |].
    destruct Hin.
Qed.

(** The claim C8 as it is worded, "zero-duration segments are never
    emitted", fails: a loud interval is emitted with the duration the
    map gives it, also when that is 0.  For an asset of 100 frames with
    the loud map [(10,0)] the sub-clips are (0,10,silent) (10,0,loud)
    (10,90,silent). *)
Lemma zero_duration_loud_clip_counterexample :
  ~ no_zero_duration_clip (one_asset_files [mkLoud 10 0]) "r1" (one_asset 100)
  /\ well_formed 100 [mkLoud 10 0]
  /\ map (fun sc => shape (snd sc))
       (sub_clips (one_asset_files [mkLoud 10 0]) "r1" (one_asset 100))
     = [ (0, 10, true); (10, 0, false); (10, 90, true) ].
Proof.
  split; [| split].
  - intros H.
    apply (H LoudInterval (mkClip "r1" 0 10 10 "30" "clip.mp4" [])).
    + vm_compute. auto.
    + reflexivity.
  - split; [repeat constructor; simpl; lia | exact I].
  - vm_compute. reflexivity.
Qed.

(** C8, amended.  Gaps of no length are not materialised.  Every
    sub-clip emitted from a gap has a positive duration; a loud interval
    that starts exactly at the source cursor is emitted alone, with no
    silent sub-clip before it, so a first interval starting at 0 makes
    the first sub-clip a loud one; when the last interval ends exactly
    at the asset's duration no trailing silent sub-clip is emitted; for
    a loud map that covers [0, D) without gaps the sub-clips are exactly
    the loud intervals of the map; and when every interval of the map
    has a positive duration, so has every emitted sub-clip. *)
Theorem zero_length_gaps_elided :
  (forall fs self ref site c,
      In (site, c) (sub_clips fs ref self) ->
      site <> LoudInterval -> 0 < num_frames c)
  /\ (forall base tb pvd p l self,
         lp_offset p
         = previous_loud_clip_start l + previous_loud_clip_duration l ->
         map fst (emitted (new_calls (loud_part_body base tb pvd p l) self))
         = [LoudInterval])
  /\ (forall fs self ref base j p rest,
         loads fs self ref base j (p :: rest) ->
         lp_offset p = 0 ->
         hd_error (sub_clips fs ref self)
         = Some (LoudInterval,
                 loud_clip base (split_first "/" (json_timebase j))
                   (cumulative_duration self) p))
  /\ (forall base tb pvd D l self,
         previous_loud_clip_start l + previous_loud_clip_duration l = D ->
         new_calls (last_silent_part base tb pvd D l) self = [])
  /\ (forall fs self ref base j front p c,
         loads fs self ref base j (front ++ [p]) ->
         lp_offset p + lp_dur p = num_frames base ->
         ~ In (GapAfter, c) (sub_clips fs ref self))
  /\ (forall fs self ref base j loud_map,
         loads fs self ref base j loud_map ->
         covers 0 (num_frames base) loud_map ->
         sub_clips fs ref self
         = map (fun p =>
                  (LoudInterval,
                   loud_clip base (split_first "/" (json_timebase j))
                     (cumulative_duration self) p))
               loud_map)
  /\ (forall fs self ref base j loud_map site c,
         loads fs self ref base j loud_map ->
         Forall (fun p => 0 < lp_dur p) loud_map ->
         In (site, c) (sub_clips fs ref self) ->
         0 < num_frames c).
Proof.
  split; [| split; [| split; [| split; [| split; [| split]]]]].
  - intros fs self ref site c Hin Hsite.
    destruct (sub_clips_cases fs self ref) as [E | (b & j & lm & _ & E)];
      rewrite E in Hin; [destruct Hin |].
    destruct (in_segments _ _ _ _ _ _ _ Hin)
      as [(p & _ & -> & _) | (a & z & Hlt & _ & ->)];
      [congruence | simpl; lia].
  - intros base tb pvd p l self Hstart.
    apply loud_part_body_no_gap. lia.
  - intros fs self ref base j p rest Hload Hzero.
    rewrite (sub_clips_loaded _ _ _ _ _ _ Hload).
    unfold segments. cbn [loop_segments]. rewrite Hzero. reflexivity.
  - intros base tb pvd D l self Hend.
    apply new_calls_unchanged.
    unfold last_silent_part, run. rewrite Hend, Z.ltb_irrefl. reflexivity.
  - intros fs self ref base j front p c Hload Hend Hin.
    rewrite (sub_clips_loaded _ _ _ _ _ _ Hload) in Hin.
    apply gap_after_is_last in Hin. rewrite end_cursor_last in Hin. lia.
  - intros fs self ref base j loud_map Hload Hcov.
    rewrite (sub_clips_loaded _ _ _ _ _ _ Hload).
    unfold segments. now apply covers_segments.
  - intros fs self ref base j loud_map site c Hload Hpos Hin.
    rewrite (sub_clips_loaded _ _ _ _ _ _ Hload) in Hin.
    rewrite Forall_forall in Hpos.
    destruct (in_segments _ _ _ _ _ _ _ Hin)
      as [(p & Hp & _ & ->) | (a & z & Hlt & _ & ->)]; simpl.
    + auto.
    + lia.
Qed.

Lemma zero_length_gaps_elided_witness :
  sub_clips (one_asset_files [mkLoud 0 60; mkLoud 60 40]) "r1" (one_asset 100)
  = [ (LoudInterval, mkClip "r1" 60 0 0 "30" "clip.mp4" []);
      (LoudInterval, mkClip "r1" 40 60 60 "30" "clip.mp4" []) ].
Proof.
  refine (proj1 (proj2 (proj2 (proj2 (proj2 (proj2
            zero_length_gaps_elided)))))
            (one_asset_files [mkLoud 0 60; mkLoud 60 40]) (one_asset 100)
            "r1" (base_clip "r1" "clip.mp4" 100)
            (mkJson [[mkLoud 0 60; mkLoud 60 40]] "30/1")
            [mkLoud 0 60; mkLoud 60 40] _ _).
  - repeat split.
  - simpl. repeat split.
Defined.

(** C9.  An asset of positive duration D whose loud map holds no
    interval yields exactly one sub-clip: silent, from source in-point 0,
    of duration D, placed at the cumulative base.  For D = 50 it is
    (0, 50, silent). *)
Theorem empty_loud_map_one_silent_clip :
  (forall fs self ref base j,
      loads fs self ref base j [] ->
      0 < num_frames base ->
      sub_clips fs ref self
      = [ (GapAfter,
           mkClip (video_ref base) (num_frames base) 0
             (cumulative_duration self)
             (split_first "/" (json_timebase j)) (filename base)
             silent_attrib) ])
  /\ map (fun sc => shape (snd sc))
       (sub_clips (one_asset_files []) "r1" (one_asset 50))
     = [ (0, 50, true) ].
Proof.
  split; [| vm_compute; reflexivity].
  intros fs self ref base j Hload HD.
  rewrite (sub_clips_loaded _ _ _ _ _ _ Hload).
  unfold segments, last_segment, gap_clip. cbn [loop_segments end_cursor app].
  destruct (Z.ltb_spec 0 (num_frames base)); [| lia].
  now rewrite Z.sub_0_r, Z.add_0_r.
Qed.

Lemma empty_loud_map_one_silent_clip_witness :
  sub_clips (one_asset_files []) "r1" (one_asset 50)
  = [ (GapAfter, mkClip "r1" 50 0 0 "30" "clip.mp4" silent_attrib) ].
Proof.
  refine (proj1 empty_loud_map_one_silent_clip (one_asset_files [])
            (one_asset 50) "r1" (base_clip "r1" "clip.mp4" 50)
            (mkJson [[]] "30/1") _ _).
  - repeat split.
  - simpl. lia.
Defined.

(** C10.  The segmentation of one asset is total on every loud map,
    sorted or not, overlapping or not: it returns without an exception
    and has emitted a finite run of sub-clips, at least one and at most
    two per interval plus one; the loud sub-clips are the intervals of
    the map, in the map's order and with the map's values (nothing is
    sorted, merged or checked); and a gap of non-positive duration is
    skipped.  The unsorted, overlapping map [(50,10),(10,20)] on an asset
    of 100 frames gives (0,50,silent) (50,10,loud) (10,20,loud)
    (30,70,silent). *)
Theorem segmentation_total :
  (forall base tb D loud_map self,
      fst (run (split_asset_clip base tb D loud_map) self) = Ok tt
      /\ map snd (filter is_loud_site
                    (emitted (new_calls
                                (split_asset_clip base tb D loud_map) self)))
         = map (loud_clip base tb (cumulative_duration self)) loud_map
      /\ (List.length loud_map
          <= List.length
               (emitted (new_calls
                           (split_asset_clip base tb D loud_map) self))
          <= 2 * List.length loud_map + 1)%nat)
  /\ (forall fs self ref base j loud_map,
         loads fs self ref base j loud_map ->
         fst (run (cut_clips_asset fs ref) self) = Ok tt
         /\ map snd (filter is_loud_site (sub_clips fs ref self))
            = map (loud_clip base (split_first "/" (json_timebase j))
                     (cumulative_duration self)) loud_map)
  /\ (forall base tb pvd p l self,
         lp_offset p
         - (previous_loud_clip_start l + previous_loud_clip_duration l) <= 0 ->
         map fst (emitted (new_calls (loud_part_body base tb pvd p l) self))
         = [LoudInterval])
  /\ map (fun sc => shape (snd sc))
       (sub_clips (one_asset_files [mkLoud 50 10; mkLoud 10 20]) "r1"
          (one_asset 100))
     = [ (0, 50, true); (50, 10, false); (10, 20, false); (30, 70, true) ].
Proof.
  split; [| split; [| split]].
  - intros base tb D loud_map self.
    rewrite split_asset_clip_emitted, split_asset_clip_run.
    split; [reflexivity |].
    split; [apply loud_of_segments | apply length_segments].
  - intros fs self ref base j loud_map Hload.
    rewrite (sub_clips_loaded _ _ _ _ _ _ Hload).
    rewrite (cut_clips_asset_ok _ _ _ _ _ _ Hload).
    split; [reflexivity | apply loud_of_segments].
  - exact loud_part_body_no_gap.
  - vm_compute. reflexivity.
Qed.

Lemma segmentation_total_witness :
  fst (run (cut_clips_asset (one_asset_files [mkLoud 50 10; mkLoud 10 20])
              "r1")
         (one_asset 100)) = Ok tt.
Proof.
  refine (proj1 (proj1 (proj2 segmentation_total)
            (one_asset_files [mkLoud 50 10; mkLoud 10 20]) (one_asset 100)
            "r1" (base_clip "r1" "clip.mp4" 100)
            (mkJson [[mkLoud 50 10; mkLoud 10 20]] "30/1")
            [mkLoud 50 10; mkLoud 10 20] _)).
  repeat split.
Defined.

(* ------------------------------------------------------------------ *)
(** ** Further properties of the segmentation pass                     *)
(* ------------------------------------------------------------------ *)



Lemma total_frames_app a b :
  total_frames (a ++ b) = total_frames a + total_frames b.
Proof.
  unfold total_frames. induction a as [| c a IH]; simpl; [reflexivity |].
  rewrite IH. lia.
Qed.

(** Processing the assets whose base clips head the sequence: every
    base clip is replaced, at the end of the sequence, by its sub-clips. *)
Lemma assets_run_all fs bases :
  forall acc self,
    clips (timeline self) = bases ++ acc ->
    (forall b, In b bases -> loadable fs self b) ->
    exists self' new,
      run (for_each (map video_ref bases) (cut_clips_asset fs)) self
      = (Ok tt, self')
      /\ calls (timeline self') = calls (timeline self) ++ new
      /\ clips (timeline self') = acc ++ map snd (emitted new)
      /\ cumulative_duration self'
         = cumulative_duration self + total_frames bases
      /\ ((forall b, In b bases -> tiled fs self b) ->
          total_frames (map snd (emitted new)) = total_frames bases).
Proof.
  induction bases as [| b0 bases IH]; intros acc self Hclips Hload.
  - exists self, []. simpl in *. rewrite !app_nil_r.
    repeat split; auto. unfold total_frames; simpl; lia.
  - destruct (Hload b0 (or_introl eq_refl)) as (j & lm & Hfile & Hlayer).
    assert (Hloads : loads fs self (video_ref b0) b0 j lm).
    { unfold loads. rewrite Hclips. simpl. rewrite String.eqb_refl. auto. }
    cbn [map]. rewrite for_each_cons.
    rewrite (cut_clips_asset_ok _ _ _ _ _ _ Hloads).
    set (segs := segments b0 (split_first "/" (json_timebase j))
                   (cumulative_duration self) (num_frames b0) lm).
    set (self1 := asset_done (video_ref b0) b0 segs self).
    assert (Hclips1 : clips (timeline self1)
                      = bases ++ (acc ++ map snd segs)).
    { unfold self1. cbn [asset_done timeline with_timeline clips tl_remove
                         with_cumulative_duration tl_emit].
      rewrite Hclips. unfold drop_base. simpl.
      rewrite String.eqb_refl. now rewrite <- app_assoc. }
    destruct (IH (acc ++ map snd segs) self1 Hclips1)
      as (self' & new1 & Hrun & Hcalls & Hfinal & Hcum & Htot).
    { intros b Hb. apply (Hload b). right; exact Hb. }
    exists self', (map call_of segs ++ [RemoveStoredVideoAsset (video_ref b0) 0]
                   ++ new1).
    split; [exact Hrun |]. split; [| split; [| split]].
    + rewrite Hcalls. unfold self1. rewrite asset_done_calls.
      now rewrite <- !app_assoc.
    + rewrite Hfinal, !emitted_app, emitted_call_of. simpl.
      now rewrite map_app, <- app_assoc.
    + rewrite Hcum. unfold self1, total_frames. simpl. lia.
    + intros Htiled. rewrite !emitted_app, emitted_call_of. simpl.
      rewrite map_app, total_frames_app, Htot.
      * destruct (Htiled b0 (or_introl eq_refl)) as [HD Hwf].
        pose proof (chain_segments b0 (split_first "/" (json_timebase j))
                      (cumulative_duration self) (num_frames b0) lm 0
                      (well_formed_from_zero _ _ HD (Hwf j lm Hfile Hlayer)))
          as Hchain.
        fold (segments b0 (split_first "/" (json_timebase j))
                (cumulative_duration self) (num_frames b0) lm) in Hchain.
        fold segs in Hchain. rewrite (chain_total _ _ _ Hchain).
        unfold total_frames. simpl. lia.
      * intros b Hb. apply (Htiled b). right; exact Hb.
Qed.



(** X3.  Frames are conserved: under the conditions of X2, if every
    base clip has a non-negative frame count and a well-formed loud map,
    the sequence duration recomputed at the end of the run equals the
    sum of the base-clip durations the run started from. *)
Theorem run_conserves_frames fs self :
  map video_ref (clips (timeline self)) = video_assets_refs (timeline self) ->
  (forall b, In b (clips (timeline self)) -> loadable fs self b) ->
  (forall b, In b (clips (timeline self)) -> tiled fs self b) ->
  sequence_duration (timeline (snd (run (cut_clips fs) self)))
  = total_frames (clips (timeline self)).
Proof.
  intros Hrefs Hload Htiled.
  destruct (assets_run_all fs (clips (timeline self)) [] self)
    as (self' & new & Hrun & Hcalls & Hclips & _ & Htot); auto.
  { now rewrite app_nil_r. }
  rewrite cut_clips_run, <- Hrefs, Hrun.
  cbn [snd timeline with_timeline tl_update_duration sequence_duration
       clips].
  rewrite Hclips. simpl. auto.
Qed.

Lemma run_conserves_frames_witness :
  sequence_duration
    (timeline (snd (run (cut_clips two_assets_files)
                      (RemoveSilence_init two_assets_timeline "videos"))))
  = total_frames (clips two_assets_timeline).
Proof.
  refine (run_conserves_frames two_assets_files
            (RemoveSilence_init two_assets_timeline "videos") _ _ _).
  - reflexivity.
  - intros b [<- | [<- | []]].
    + exists (mkJson [[]] "30/1"), []. split; reflexivity.
    + exists (mkJson [[mkLoud 0 80]] "30/1"), [mkLoud 0 80].
      split; reflexivity.
  - intros b [<- | [<- | []]].
    + split; [simpl; lia |]. intros j lm Hj Hlm.
      vm_compute in Hj. injection Hj as <-. injection Hlm as <-.
      split; [constructor | exact I].
    + split; [simpl; lia |]. intros j lm Hj Hlm.
      vm_compute in Hj. injection Hj as <-. injection Hlm as <-.
      split; [repeat constructor; simpl; lia | exact I].
Defined.

Lemma chain_well_formed_from base tb pvd D loud_map :
  forall cursor,
    chain cursor
      (map snd (loop_segments base tb pvd cursor loud_map
                ++ last_segment base tb pvd (end_cursor cursor loud_map) D))
      D ->
    well_formed_from cursor D loud_map.
Proof.
  induction loud_map as [| p rest IH]; intros cursor;
    cbn [well_formed_from loop_segments end_cursor].
  - unfold last_segment. simpl app.
    destruct (Z.ltb_spec cursor D); simpl; lia.
  - destruct (Z.ltb_spec cursor (lp_offset p)); simpl.
    + intros (_ & _ & Hrest). split; [lia |]. apply IH. exact Hrest.
    + intros (Hstart & Hrest). split; [lia |]. apply IH. exact Hrest.
Qed.

(** X4.  The sub-clips emitted for an asset tile its media (the first
    begins at 0, each next one begins where the previous ends, the last
    ends at the asset's duration; none at all only for duration 0)
    exactly when every loud interval begins at or after the end of the
    one before it, the first at or after 0, and the last ends at or
    before the asset's duration.  A gap or an overlap in the emitted run
    therefore reveals a malformed loud map, and only that. *)
Theorem tiling_iff_well_formed fs self ref base j loud_map :
  loads fs self ref base j loud_map ->
  chain 0 (map snd (sub_clips fs ref self)) (num_frames base)
  <-> well_formed_from 0 (num_frames base) loud_map.
Proof.
  intros Hload. rewrite (sub_clips_loaded _ _ _ _ _ _ Hload).
  unfold segments. split.
  - apply chain_well_formed_from.
  - apply chain_segments.
Qed.

Lemma tiling_iff_well_formed_witness :
  chain 0
    (map snd (sub_clips (one_asset_files [mkLoud 10 20; mkLoud 50 10]) "r1"
                (one_asset 100)))
    100
  <-> well_formed_from 0 100 [mkLoud 10 20; mkLoud 50 10].
Proof.
  refine (tiling_iff_well_formed
            (one_asset_files [mkLoud 10 20; mkLoud 50 10]) (one_asset 100)
            "r1" (base_clip "r1" "clip.mp4" 100)
            (mkJson [[mkLoud 10 20; mkLoud 50 10]] "30/1")
            [mkLoud 10 20; mkLoud 50 10] _).
  repeat split.
Defined.

(** X5.  Every sub-clip emitted for an asset carries the asset's
    reference and the base clip's name, and its frame rate is the text
    of the loud map's timebase before the first "/": the numerator
    only, whatever the denominator and whatever the base clip's own
    frame rate. *)
Theorem sub_clips_inherit fs self ref base j loud_map site c :
  loads fs self ref base j loud_map ->
  In (site, c) (sub_clips fs ref self) ->
  video_ref c = ref
  /\ filename c = filename base
  /\ fps c = split_first "/" (json_timebase j).
Proof.
  intros Hload Hin. rewrite (sub_clips_loaded _ _ _ _ _ _ Hload) in Hin.
  destruct Hload as (Hbase & _).
  apply stored_video_asset_ref in Hbase.
  destruct (in_segments _ _ _ _ _ _ _ Hin)
    as [(p & _ & _ & ->) | (a & z & _ & _ & ->)]; simpl; auto.
Qed.

Lemma sub_clips_inherit_witness :
  fps (mkClip "r1" 10 0 0 "30000" "clip.mp4" []) = "30000".
Proof.
  refine (proj2 (proj2
    (sub_clips_inherit ntsc_files (one_asset 100) "r1"
       (base_clip "r1" "clip.mp4" 100)
       (mkJson [[mkLoud 0 10]] "30000/1001") [mkLoud 0 10]
       LoudInterval (mkClip "r1" 10 0 0 "30000" "clip.mp4" []) _ _))).
  - repeat split.
  - vm_compute. auto.
Defined.

(** X6.  Sub-clips are emitted asset by asset, in registration order:
    once the assets of a prefix of the registration list have been
    segmented, the sub-clips of the whole run are those of the prefix
    followed by those of the rest, and each part holds only clips of its
    own assets. *)
Theorem sub_clips_follow_registration_order fs self pre post self1 :
  video_assets_refs (timeline self) = pre ++ post ->
  run (for_each pre (cut_clips_asset fs)) self = (Ok tt, self1) ->
  emitted (new_calls (cut_clips fs) self)
  = emitted (new_calls (for_each pre (cut_clips_asset fs)) self)
    ++ emitted (new_calls (for_each post (cut_clips_asset fs)) self1)
  /\ (forall s c,
         In (s, c) (emitted (new_calls (for_each pre (cut_clips_asset fs))
                               self)) ->
         In (video_ref c) pre)
  /\ (forall s c,
         In (s, c) (emitted (new_calls (for_each post (cut_clips_asset fs))
                               self1)) ->
         In (video_ref c) post).
Proof.
  intros Hrefs Hpre.
  destruct (assets_loop fs pre self) as (n1 & Hc1 & _ & _ & Hin1 & _).
  destruct (assets_loop fs post self1) as (n2 & Hc2 & _ & _ & Hin2 & _).
  destruct (cut_clips_emitted fs self) as (new & Hc & Hem).
  rewrite Hpre in Hc1. cbn [snd] in Hc1.
  rewrite Hrefs, for_each_app, Hpre, Hc2, Hc1, <- app_assoc in Hc.
  apply app_inv_head in Hc. subst new.
  assert (E1 : new_calls (for_each pre (cut_clips_asset fs)) self = n1).
  { unfold new_calls. rewrite Hpre. cbn [snd].
    now rewrite Hc1, skipn_length_app. }
  assert (E2 : new_calls (for_each post (cut_clips_asset fs)) self1 = n2).
  { unfold new_calls. now rewrite Hc2, skipn_length_app. }
  rewrite Hem, E1, E2, emitted_app. auto.
Qed.

Lemma sub_clips_follow_registration_order_witness :
  In (video_ref (mkClip "r2" 80 0 100 "30" "second.mp4" [])) ["r2"].
Proof.
  refine (proj2 (proj2
    (sub_clips_follow_registration_order two_assets_files
       (RemoveSilence_init two_assets_timeline "videos") ["r1"] ["r2"]
       (snd (run (for_each ["r1"] (cut_clips_asset two_assets_files))
               (RemoveSilence_init two_assets_timeline "videos"))) _ _))
    LoudInterval (mkClip "r2" 80 0 100 "30" "second.mp4" []) _).
  - reflexivity.
  - reflexivity.
  - vm_compute. auto.
Defined.

Lemma split_first_app sep a b :
  split_first sep (a ++ String sep b) = split_first sep a.
Proof.
  induction a as [| c a IH]; simpl.
  - now rewrite Ascii.eqb_refl.
  - destruct (Ascii.eqb c sep); [reflexivity | now rewrite IH].
Qed.

(** X7.  A clip's loud map is looked up under the clip's name cut at
    its first dot, not at its last: whatever follows the first dot
    plays no part in the path, so two assets whose names agree up to a
    dot are segmented with one and the same loud-map document. *)
Theorem names_cut_at_first_dot :
  (forall self stem ext,
      loud_map_path self (split_first "." (dotted stem ext))
      = loud_map_path self (split_first "." stem))
  /\ (forall fs self r1 r2 b1 b2 j1 j2 lm1 lm2 stem e1 e2,
         filename b1 = dotted stem e1 ->
         filename b2 = dotted stem e2 ->
         loads fs self r1 b1 j1 lm1 ->
         loads fs self r2 b2 j2 lm2 ->
         j1 = j2 /\ lm1 = lm2).
Proof.
  split.
  - intros self stem ext. unfold dotted. now rewrite split_first_app.
  - intros fs self r1 r2 b1 b2 j1 j2 lm1 lm2 stem e1 e2 Hn1 Hn2
      (_ & Hf1 & Hl1) (_ & Hf2 & Hl2).
    rewrite Hn1 in Hf1. rewrite Hn2 in Hf2. unfold dotted in Hf1, Hf2.
    rewrite split_first_app in Hf1, Hf2.
    rewrite Hf1 in Hf2. injection Hf2 as <-.
    rewrite Hl1 in Hl2. injection Hl2 as <-. auto.
Qed.

Lemma names_cut_at_first_dot_witness :
  mkJson [[mkLoud 0 80]] "30/1" = mkJson [[mkLoud 0 80]] "30/1"
  /\ [mkLoud 0 80] = [mkLoud 0 80].
Proof.
  refine (proj2 names_cut_at_first_dot takes_files
            (RemoveSilence_init takes_timeline "videos") "r1" "r2"
            (base_clip "r1" "take.1.mp4" 100)
            (base_clip "r2" "take.2.mp4" 80)
            (mkJson [[mkLoud 0 80]] "30/1") (mkJson [[mkLoud 0 80]] "30/1")
            [mkLoud 0 80] [mkLoud 0 80] "take" "1.mp4" "2.mp4" _ _ _ _).
  - reflexivity.
  - reflexivity.
  - repeat split.
  - repeat split.
Defined.

(* ------------------------------------------------------------------ *)
(** ** Sorting of file names                                           *)
(* ------------------------------------------------------------------ *)

Lemma str_leb_spec a b :
  str_leb a b = true <-> a = b \/ String_as_OT.lt a b.
Proof.
  unfold str_leb.
  destruct (String_as_OT.compare_spec a b) as [E | L | G]; split; auto;
    try discriminate.
  intros [E | L].
  - subst. exfalso. exact (StrictOrder_Irreflexive b G).
  - exfalso.
    exact (StrictOrder_Irreflexive a (StrictOrder_Transitive a b a L G)).
Qed.

Lemma str_leb_total a b : str_leb a b = true \/ str_leb b a = true.
Proof.
  rewrite !str_leb_spec.
  destruct (String_as_OT.compare_spec a b); auto.
Qed.

Lemma str_leb_trans a b c :
  str_leb a b = true -> str_leb b c = true -> str_leb a c = true.
Proof.
  rewrite !str_leb_spec. intros [-> | L1] [-> | L2]; auto.
  right. exact (StrictOrder_Transitive a b c L1 L2).
Qed.

Lemma insert_sorted_perm x l : Permutation (insert_sorted x l) (x :: l).
Proof.
  induction l as [| y l IH]; simpl; [reflexivity |].
  destruct (str_leb x y); [reflexivity |].
  rewrite IH. apply perm_swap.
Qed.

Lemma sorted_perm l : Permutation (sorted l) l.
Proof.
  induction l as [| x l IH]; simpl; [reflexivity |].
  rewrite insert_sorted_perm. now constructor.
Qed.

Lemma in_sorted x l : In x (sorted l) <-> In x l.
Proof.
  split; apply Permutation_in;
    [apply sorted_perm | apply Permutation_sym, sorted_perm].
Qed.

Lemma insert_sorted_strongly x l :
  StronglySorted (fun a b => str_leb a b = true) l ->
  StronglySorted (fun a b => str_leb a b = true) (insert_sorted x l).
Proof.
  induction l as [| y l IH]; simpl; intros Hs.
  - repeat constructor.
  - apply StronglySorted_inv in Hs. destruct Hs as [Hl Hy].
    destruct (str_leb x y) eqn:E.
    + constructor; [constructor; assumption |].
      constructor; [exact E |].
      eapply Forall_impl; [| exact Hy].
      intros z Hz. eapply str_leb_trans; eassumption.
    + constructor; [apply IH; exact Hl |].
      rewrite Forall_forall. intros z Hz.
      apply (Permutation_in _ (insert_sorted_perm x l)) in Hz.
      destruct Hz as [<- | Hz].
      * destruct (str_leb_total x y) as [H | H]; congruence.
      * rewrite Forall_forall in Hy. auto.
Qed.

Lemma sorted_strongly l :
  StronglySorted (fun a b => str_leb a b = true) (sorted l).
Proof.
  induction l as [| x l IH]; simpl; [constructor |].
  now apply insert_sorted_strongly.
Qed.

Lemma filter_strongly {A} (R : A -> A -> Prop) (p : A -> bool) l :
  StronglySorted R l -> StronglySorted R (filter p l).
Proof.
  induction 1 as [| a l Hl IH Ha]; simpl; [constructor |].
  destruct (p a); [| exact IH].
  constructor; [exact IH |].
  rewrite Forall_forall in *. intros x Hx.
  apply filter_In in Hx. destruct Hx as [Hx _]. auto.
Qed.

(* ------------------------------------------------------------------ *)
(** ** Loud maps and previews for the videos of a folder               *)
(* ------------------------------------------------------------------ *)




Lemma for_each_video_filter isfile method videos :
  forall sh,
    for_each_video isfile method videos sh
    = for_each_video isfile method (filter isfile videos) sh.
Proof.
  induction videos as [| v rest IH]; intros sh; simpl; [reflexivity |].
  destruct (isfile v) eqn:E; simpl; [| apply IH].
  rewrite E. simpl.
  destruct (method v (split_first "." (basename v)) sh) as [[[] | e] sh1];
    auto.
Qed.

(** X9.  When auto-editor cannot be started at all, the exception is
    not caught: [generate_loud_map_for_each_video_in_folder] raises at
    the first regular file, after that one attempt, and attempts no
    other video. *)
Theorem missing_tool_stops_at_first_file
    auto_editor get_video_files isfile self sh video rest :
  filter isfile (sorted (get_video_files (videos_folder self)))
  = video :: rest ->
  auto_editor (loud_map_command self video) = CannotStart ->
  generate_loud_map_for_each_video_in_folder
    auto_editor get_video_files isfile self sh
  = (Raise (FileNotFoundError "auto-editor"),
     sh_run (loud_map_command self video)
       (sh_makedirs (loud_maps_folder self) sh)).
Proof.
  intros Hfiles Hstart.
  unfold generate_loud_map_for_each_video_in_folder.
  rewrite for_each_video_filter, Hfiles.
  assert (Hfile : isfile video = true).
  { assert (Hin : In video (filter isfile
                              (sorted (get_video_files (videos_folder self)))))
      by (rewrite Hfiles; simpl; auto).
    apply filter_In in Hin. tauto. }
  cbn [for_each_video]. rewrite Hfile. cbn [negb].
  unfold generate_video_loud_map.
  fold (loud_map_path self (split_first "." (basename video))).
  fold (loud_map_command self video).
  rewrite Hstart. reflexivity.
Qed.

Lemma missing_tool_stops_at_first_file_witness :
  generate_loud_map_for_each_video_in_folder
    not_installed folder_videos not_dir
    (RemoveSilence_init two_assets_timeline "videos") empty_shell
  = (Raise (FileNotFoundError "auto-editor"),
     mkShell ["videos/remove_silence"]
       [ [ "auto-editor"; "videos/a.x.mp4"; "--export-as-json"; "--margin";
           "0.2sec"; "--output-file";
           "videos/remove_silence/a_loud_map.json" ] ]
       []).
Proof.
  refine (missing_tool_stops_at_first_file not_installed folder_videos not_dir
            (RemoveSilence_init two_assets_timeline "videos") empty_shell
            "videos/a.x.mp4" ["videos/b.mp4"] _ _).
  - reflexivity.
  - reflexivity.
Defined.



(* ------------------------------------------------------------------ *)
(** ** Joining the previews                                            *)
(* ------------------------------------------------------------------ *)

Lemma filter_none_matches {A} (p : A -> bool) l :
  existsb p l = false -> filter (fun x => negb (p x)) l = l.
Proof.
  induction l as [| x l IH]; simpl; [reflexivity |].
  destruct (p x); simpl; [discriminate |]. intros H. now rewrite IH.
Qed.

Lemma without_final_filter self listing :
  without_final self listing
  = filter (fun n => negb (names_path self (preview_final_video self) n))
      listing.
Proof.
  unfold without_final.
  destruct (existsb _ listing) eqn:E; [reflexivity |].
  symmetry. now apply filter_none_matches.
Qed.

Lemma in_preview_videos self listing v :
  In v (preview_videos self listing) <->
  exists name,
    In name listing
    /\ ends_with (loud_video_preview_sufix self) name = true
    /\ os_path_join (loud_maps_folder self) name <> preview_final_video self
    /\ v = os_path_join (loud_maps_folder self) name.
Proof.
  unfold preview_videos. rewrite in_map_iff. split.
  - intros (name & <- & Hin). apply filter_In in Hin.
    destruct Hin as [Hin Hend]. apply (proj1 (in_sorted _ _)) in Hin.
    rewrite without_final_filter in Hin. apply filter_In in Hin.
    destruct Hin as [Hin Hneq]. exists name. repeat split; auto.
    unfold names_path in Hneq. intros E. rewrite E, String.eqb_refl in Hneq.
    discriminate.
  - intros (name & Hin & Hend & Hneq & ->). exists name. split; auto.
    apply filter_In. split; auto. apply (proj2 (in_sorted _ _)).
    rewrite without_final_filter. apply filter_In. split; auto.
    unfold names_path. destruct (String.eqb_spec
      (os_path_join (loud_maps_folder self) name) (preview_final_video self));
      [contradiction | reflexivity].
Qed.

(** X11.  [join_all_preview_videos] hands to ffmpeg the paths of the
    entries of the loud-maps folder whose names end with the preview
    suffix, after the final preview was removed: a path is concatenated
    if and only if it names such an entry and is not the final preview
    itself.  The list file holds one line [file '<path>'] per path, it is
    the input of the concat command, and the final preview is its
    output. *)
Theorem join_concatenates_previews_only ffmpeg self listing :
  (forall v,
      In v (concat_inputs (snd (join_all_preview_videos ffmpeg self listing)))
      <-> exists name,
            In name listing
            /\ ends_with (loud_video_preview_sufix self) name = true
            /\ os_path_join (loud_maps_folder self) name
               <> preview_final_video self
            /\ v = os_path_join (loud_maps_folder self) name)
  /\ ~ In (preview_final_video self)
         (concat_inputs (snd (join_all_preview_videos ffmpeg self listing)))
  /\ list_file_text (snd (join_all_preview_videos ffmpeg self listing))
     = String.concat ""
         (map (fun v => ("file '" ++ v ++ "'" ++ newline)%string)
            (concat_inputs
               (snd (join_all_preview_videos ffmpeg self listing))))
  /\ ffmpeg_input (snd (join_all_preview_videos ffmpeg self listing))
     = list_file_path (snd (join_all_preview_videos ffmpeg self listing))
  /\ ffmpeg_output (snd (join_all_preview_videos ffmpeg self listing))
     = preview_final_video self.
Proof.
  cbn [join_all_preview_videos snd concat_inputs list_file_text ffmpeg_input
       list_file_path ffmpeg_output].
  split; [| split; [| auto]].
  - intros v. apply in_preview_videos.
  - intros Hin. apply in_preview_videos in Hin.
    destruct Hin as (name & _ & _ & Hneq & E). congruence.
Qed.

(** X12.  The previews are concatenated in ascending order of their
    file names, each matching entry of the folder once. *)
Theorem join_concatenates_in_name_order ffmpeg self listing :
  exists names,
    concat_inputs (snd (join_all_preview_videos ffmpeg self listing))
    = map (os_path_join (loud_maps_folder self)) names
    /\ StronglySorted (fun a b => str_leb a b = true) names
    /\ Permutation names
         (filter (ends_with (loud_video_preview_sufix self))
            (filter
               (fun n => negb (names_path self (preview_final_video self) n))
               listing)).
Proof.
  exists (filter (ends_with (loud_video_preview_sufix self))
            (sorted (without_final self listing))).
  split; [reflexivity |]. split.
  - apply filter_strongly, sorted_strongly.
  - rewrite <- without_final_filter.
    generalize (sorted_perm (without_final self listing)).
    generalize (sorted (without_final self listing)) (without_final self listing).
    intros l1 l2 Hperm.
    induction Hperm as [| x l l' _ IH | x y l | l l' l'' _ IH1 _ IH2]; simpl.
    + constructor.
    + destruct (ends_with _ x); [constructor |]; exact IH.
    + destruct (ends_with _ x), (ends_with _ y);
        try apply perm_swap; reflexivity.
    + etransitivity; eassumption.
Qed.

(** X13.  The name of the final preview, [final_preview.mp4], itself
    ends with the preview suffix; because the file is removed before
    the folder is listed, a final preview left by an earlier run is not
    fed back: the concat list is the same with and without it. *)
Theorem stale_final_preview_is_not_an_input ffmpeg tl folder listing :
  ends_with
    (loud_video_preview_sufix (RemoveSilence_init tl folder))
    "final_preview.mp4" = true
  /\ final_removed
       (snd (join_all_preview_videos ffmpeg (RemoveSilence_init tl folder)
               ("final_preview.mp4" :: listing))) = true
  /\ concat_inputs
       (snd (join_all_preview_videos ffmpeg (RemoveSilence_init tl folder)
               ("final_preview.mp4" :: listing)))
     = concat_inputs
         (snd (join_all_preview_videos ffmpeg (RemoveSilence_init tl folder)
                 listing)).
Proof.
  split; [reflexivity |].
  cbn [join_all_preview_videos snd final_removed concat_inputs].
  assert (Hname : names_path (RemoveSilence_init tl folder)
                    (preview_final_video (RemoveSilence_init tl folder))
                    "final_preview.mp4" = true).
  { unfold names_path. apply String.eqb_refl. }
  split.
  - cbn [existsb]. now rewrite Hname.
  - unfold preview_videos. rewrite !without_final_filter.
    cbn [filter]. now rewrite Hname.
Qed.

(** X14.  A video whose file name reads [final] before its first dot
    gets its preview written to the path of the final preview; that
    file is removed when the previews are joined, so this video is
    missing from the concatenation. *)
Theorem preview_of_final_is_lost tl folder video :
  split_first "." (basename video) = "final" ->
  nth 5 (preview_command (RemoveSilence_init tl folder) video) ""
  = preview_final_video (RemoveSilence_init tl folder)
  /\ forall ffmpeg listing,
       ~ In (nth 5 (preview_command (RemoveSilence_init tl folder) video) "")
           (concat_inputs
              (snd (join_all_preview_videos ffmpeg
                      (RemoveSilence_init tl folder) listing))).
Proof.
  intros Hname.
  assert (E : nth 5 (preview_command (RemoveSilence_init tl folder) video) ""
              = preview_final_video (RemoveSilence_init tl folder)).
  { cbn [nth preview_command]. unfold preview_path. rewrite Hname.
    reflexivity. }
  split; [exact E |].
  intros ffmpeg listing. rewrite E.
  cbn [join_all_preview_videos snd concat_inputs].
  intros Hin. apply in_preview_videos in Hin.
  destruct Hin as (name & _ & _ & Hneq & Heq). congruence.
Qed.

Lemma preview_of_final_is_lost_witness :
  nth 5
    (preview_command (RemoveSilence_init two_assets_timeline "videos")
       "videos/final.cut.mp4") ""
  = "videos/remove_silence/final_preview.mp4".
Proof.
  refine (proj1
    (preview_of_final_is_lost two_assets_timeline "videos"
       "videos/final.cut.mp4" _)).
  reflexivity.
Defined.

(* ------------------------------------------------------------------ *)
(** ** Runs of the entry point                                         *)
(* ------------------------------------------------------------------ *)

(** X15.  With none of [--just-subtitles], [--skip-preprocess] and
    [--already-preprocessed] on the command line, a run ends in
    [preprocess_videos]: the preprocessing feature is never constructed
    on that path, so the call on it fails on [None], before anything
    outside the orchestrator was called. *)
Theorem default_run_fails_in_preprocess
    fs other new_pre pre_all new_tl concat preview subtitles fcpxml a :
  just_subtitles a = false ->
  skip_preprocess a = false ->
  already_preprocessed a = false ->
  main fs other new_pre pre_all new_tl concat preview subtitles fcpxml a
  = (Failed (NoneAttribute "preprocess_all_videos_in_folder"),
     Orchestrator_init a).
Proof.
  intros Hjs Hsp Hap.
  unfold main, and_then at 1, preprocess_videos.
  cbn [Orchestrator_init oa_args oa_preprocess_feat].
  now rewrite Hjs, Hsp, Hap.
Qed.

Lemma default_run_fails_in_preprocess_witness :
  fine_main (mkArgs "videos" false false false false false)
  = (Failed (NoneAttribute "preprocess_all_videos_in_folder"),
     Orchestrator_init (mkArgs "videos" false false false false false)).
Proof.
  apply default_run_fails_in_preprocess; reflexivity.
Defined.

(** X16.  [--skip-preprocess] together with [--already-preprocessed]
    (without [--just-subtitles]) ends in [determine_input_folder]: the
    skip returns before the preprocessing feature is constructed, and
    the preprocessed folder is then read from [None].  Nothing outside
    the orchestrator was called. *)
Theorem skip_and_already_preprocessed_fails
    fs other new_pre pre_all new_tl concat preview subtitles fcpxml a :
  just_subtitles a = false ->
  skip_preprocess a = true ->
  already_preprocessed a = true ->
  main fs other new_pre pre_all new_tl concat preview subtitles fcpxml a
  = (Failed (NoneAttribute "preprocessed_folder"), Orchestrator_init a).
Proof.
  intros Hjs Hsp Hap.
  unfold main, and_then at 1, preprocess_videos.
  cbn [Orchestrator_init oa_args oa_preprocess_feat].
  rewrite Hjs, Hsp.
  unfold and_then at 1, determine_input_folder.
  cbn [Orchestrator_init oa_args oa_preprocess_feat]. now rewrite Hjs, Hap.
Qed.

Lemma skip_and_already_preprocessed_fails_witness :
  fine_main (mkArgs "videos" true true false false false)
  = (Failed (NoneAttribute "preprocessed_folder"),
     Orchestrator_init (mkArgs "videos" true true false false false)).
Proof.
  apply skip_and_already_preprocessed_fails; reflexivity.
Defined.

Lemma early_events_app evs ev :
  forallb early_event evs = true ->
  early_event ev = true ->
  forallb early_event (evs ++ [ev]) = true.
Proof. intros H1 H2. rewrite forallb_app, H1. simpl. now rewrite H2. Qed.

(** The steps before [remove_silence] keep the command line and call
    only constructors and methods of the preprocessing, timeline and
    concatenation code. *)
Lemma early_steps_keep_early
    new_pre pre_all new_tl concat o :
  forallb early_event (oa_events o) = true ->
  (oa_args (snd (preprocess_videos new_pre pre_all o)) = oa_args o
   /\ forallb early_event
        (oa_events (snd (preprocess_videos new_pre pre_all o))) = true)
  /\ (oa_args (snd (determine_input_folder o)) = oa_args o
      /\ forallb early_event
           (oa_events (snd (determine_input_folder o))) = true)
  /\ (oa_args (snd (create_timeline new_tl o)) = oa_args o
      /\ forallb early_event
           (oa_events (snd (create_timeline new_tl o))) = true)
  /\ (oa_args (snd (concatenate_files concat o)) = oa_args o
      /\ forallb early_event
           (oa_events (snd (concatenate_files concat o))) = true).
Proof.
  intros Hearly.
  unfold preprocess_videos, determine_input_folder, create_timeline,
    concatenate_files.
  repeat split.
  all: repeat match goal with
         | |- context [if ?b then _ else _] => destruct b
         | |- context [match ?x with _ => _ end] => destruct x
         end; cbn; auto using early_events_app.
Qed.

Lemma remove_silence_always_fails fs other o :
  just_subtitles (oa_args o) = false ->
  exists f,
    fst (remove_silence fs other o) = Failed f
    /\ oa_events (snd (remove_silence fs other o)) = oa_events o.
Proof.
  intros Hflag. unfold remove_silence. rewrite Hflag.
  destruct (oa_input_folder o) as [folder |]; [| cbn; eauto].
  destruct (oa_timeline o) as [t |].
  - unfold Orchestrator_remove_silence. cbn [args]. rewrite Hflag.
    cbn. eauto.
  - cbn. eauto.
Qed.

Lemma in_early_events ev evs :
  forallb early_event evs = true -> In ev evs -> early_event ev = true.
Proof. intros H Hin. rewrite forallb_forall in H. auto. Qed.

(** X17.  No run of the entry point writes the FCPXML file.  With
    [--just-subtitles] the step returns at once; without it the run
    never returns normally, because the remove-silence step, if reached,
    raises: the run ends with an exception, and neither the final
    preview nor the subtitles nor the FCPXML file are asked for. *)
Theorem no_run_writes_the_fcpxml_file
    fs other new_pre pre_all new_tl concat preview subtitles fcpxml a :
  ~ In GenerateFcpxmlFile
      (oa_events
         (snd (main fs other new_pre pre_all new_tl concat preview subtitles
                 fcpxml a)))
  /\ (just_subtitles a = false ->
      (exists f,
          fst (main fs other new_pre pre_all new_tl concat preview subtitles
                 fcpxml a) = Failed f)
      /\ forallb early_event
           (oa_events
              (snd (main fs other new_pre pre_all new_tl concat preview
                      subtitles fcpxml a))) = true).
Proof.
  assert (Hnot : just_subtitles a = false ->
                 exists f o',
                   main fs other new_pre pre_all new_tl concat preview
                     subtitles fcpxml a = (Failed f, o')
                   /\ forallb early_event (oa_events o') = true).
  { intros Hjs. unfold main.
    set (o0 := Orchestrator_init a).
    assert (H0 : oa_args o0 = a /\ forallb early_event (oa_events o0) = true)
      by (split; reflexivity).
    unfold and_then at 1.
    destruct (early_steps_keep_early new_pre pre_all new_tl concat o0
                (proj2 H0)) as ((Ha1 & He1) & _).
    destruct (preprocess_videos new_pre pre_all o0) as [[[] | f1] o1];
      cbn [fst snd] in *; [| eauto].
    unfold and_then at 1.
    destruct (early_steps_keep_early new_pre pre_all new_tl concat o1 He1)
      as (_ & (Ha2 & He2) & _).
    destruct (determine_input_folder o1) as [[[] | f2] o2];
      cbn [fst snd] in *; [| eauto].
    unfold and_then at 1.
    destruct (early_steps_keep_early new_pre pre_all new_tl concat o2 He2)
      as (_ & _ & (Ha3 & He3) & _).
    destruct (create_timeline new_tl o2) as [[[] | f3] o3];
      cbn [fst snd] in *; [| eauto].
    unfold and_then at 1.
    destruct (early_steps_keep_early new_pre pre_all new_tl concat o3 He3)
      as (_ & _ & _ & (Ha4 & He4)).
    destruct (concatenate_files concat o3) as [[[] | f4] o4];
      cbn [fst snd] in *; [| eauto].
    unfold and_then at 1.
    destruct (remove_silence_always_fails fs other o4) as (f5 & Hf & He5).
    { rewrite Ha4, Ha3, Ha2, Ha1. destruct H0 as [-> _]. exact Hjs. }
    destruct (remove_silence fs other o4) as [[[] | f6] o5];
      cbn [fst snd] in *; [discriminate |].
    exists f6, o5. split; [reflexivity |]. now rewrite He5. }
  split.
  - destruct (just_subtitles a) eqn:Hjs.
    + destruct a as [inp sp ap js ss sj]. cbn in Hjs. subst js.
      unfold main, and_then, preprocess_videos, determine_input_folder,
        create_timeline, concatenate_files, remove_silence,
        determine_subtitles_video, add_subtitles, generate_fcpxml.
      destruct sj, ss; cbn; try solve [intuition congruence].
      destruct (subtitles _ _); cbn; intuition congruence.
    + intros Hin. destruct (Hnot eq_refl) as (f & o' & Hmain & Hearly).
      rewrite Hmain in Hin. cbn [snd] in Hin.
      apply (in_early_events _ _ Hearly) in Hin. discriminate.
  - intros Hjs. destruct (Hnot Hjs) as (f & o' & Hmain & Hearly).
    rewrite Hmain. cbn [fst snd]. eauto.
Qed.


Lemma no_run_writes_the_fcpxml_file_witness :
  exists f, fst (fine_main plain_args) = Failed f.
Proof.
  exact (proj1 (proj2
    (no_run_writes_the_fcpxml_file two_assets_files (fun _ => ret tt)
       fine_PreprocessVideos fine_unit fine_Timeline fine_concatenate
       fine_unit fine_subtitles fine_unit plain_args) eq_refl)).
Defined.

(** X18.  [--just-subtitles] alone does nothing: unless [--skip-jcut]
    is also given (and [--skip-subtitles] is not), the run returns
    normally without a single call to the subtitle generator or to any
    other code outside the orchestrator. *)
Theorem just_subtitles_alone_does_nothing
    fs other new_pre pre_all new_tl concat preview subtitles fcpxml a :
  just_subtitles a = true ->
  skip_jcut a = false \/ skip_subtitles a = true ->
  fst (main fs other new_pre pre_all new_tl concat preview subtitles fcpxml a)
  = Done tt
  /\ oa_events
       (snd (main fs other new_pre pre_all new_tl concat preview subtitles
               fcpxml a)) = [].
Proof.
  destruct a as [inp sp ap js ss sj]. cbn. intros -> Hflags.
  unfold main, and_then, preprocess_videos, determine_input_folder,
    create_timeline, concatenate_files, remove_silence,
    determine_subtitles_video, add_subtitles, generate_fcpxml.
  destruct Hflags as [-> | ->]; [| destruct sj]; cbn; auto.
Qed.

Lemma just_subtitles_alone_does_nothing_witness :
  oa_events
    (snd (fine_main (mkArgs "videos/cut.mp4" false false true false false)))
  = [].
Proof.
  refine (proj2
    (just_subtitles_alone_does_nothing two_assets_files (fun _ => ret tt)
       fine_PreprocessVideos fine_unit fine_Timeline fine_concatenate
       fine_unit fine_subtitles fine_unit
       (mkArgs "videos/cut.mp4" false false true false false) _ _)).
  - reflexivity.
  - left. reflexivity.
Defined.

Lemma dirname_without_slash p : has_slash p = false -> dirname p = "".
Proof.
  intros H. unfold dirname.
  assert (E : upto_last_slash p = "").
  { induction p as [| c p IH]; [reflexivity |].
    simpl in H |- *. apply orb_false_iff in H. destruct H as [Hc Hp].
    now rewrite Hp, Hc. }
  now rewrite E.
Qed.

(** X19.  With [--just-subtitles] and [--skip-jcut] (and without
    [--skip-subtitles]) a run makes exactly one call outside the
    orchestrator: the subtitle generator, on the directory part of the
    input path and on the input path itself, and the run ends as that
    call ends.  For an input path without a slash the folder passed is
    the empty string. *)
Theorem just_subtitles_generates_subtitles
    fs other new_pre pre_all new_tl concat preview subtitles fcpxml a :
  just_subtitles a = true ->
  skip_jcut a = true ->
  skip_subtitles a = false ->
  fst (main fs other new_pre pre_all new_tl concat preview subtitles fcpxml a)
  = subtitles (Some (dirname (input a))) (Some (input a))
  /\ oa_events
       (snd (main fs other new_pre pre_all new_tl concat preview subtitles
               fcpxml a))
     = [GenerateSubtitles (Some (dirname (input a))) (Some (input a))]
  /\ (has_slash (input a) = false -> dirname (input a) = "").
Proof.
  destruct a as [inp sp ap js ss sj]. cbn. intros -> -> ->.
  unfold main, and_then, preprocess_videos, determine_input_folder,
    create_timeline, concatenate_files, remove_silence,
    determine_subtitles_video, add_subtitles, generate_fcpxml.
  cbn. split; [| split; [| apply dirname_without_slash]].
  - destruct (subtitles (Some (dirname inp)) (Some inp)) as [[] | f];
      reflexivity.
  - destruct (subtitles (Some (dirname inp)) (Some inp)) as [[] | f];
      reflexivity.
Qed.

Lemma just_subtitles_generates_subtitles_witness :
  oa_events
    (snd (fine_main (mkArgs "videos/cut.mp4" false false true false true)))
  = [GenerateSubtitles (Some "videos") (Some "videos/cut.mp4")].
Proof.
  refine (proj1 (proj2
    (just_subtitles_generates_subtitles two_assets_files (fun _ => ret tt)
       fine_PreprocessVideos fine_unit fine_Timeline fine_concatenate
       fine_unit fine_subtitles fine_unit
       (mkArgs "videos/cut.mp4" false false true false true) _ _ _)));
    reflexivity.
Defined.

(** X20.  When the steps before it succeed (the preprocessing is
    skipped, or the preprocessed folder is taken over, and the timeline
    is created and filled), a run without [--just-subtitles] ends in the
    remove-silence step with the attribute error for
    [remove_silence_from_videos]; the orchestrator then holds a
    [RemoveSilence] object on the input folder and the timeline exactly
    as the concatenation left it. *)
Theorem run_ends_in_remove_silence
    fs other new_pre pre_all new_tl concat preview subtitles fcpxml
    a p folder t t' :
  just_subtitles a = false ->
  (skip_preprocess a = true /\ already_preprocessed a = false
   /\ folder = input a)
  \/ (skip_preprocess a = false /\ already_preprocessed a = true
      /\ new_pre (input a) = Done p /\ folder = preprocessed_folder p) ->
  new_tl (Some folder) = Done t ->
  concat (Some t) (Some folder) = Done (Some t') ->
  fst (main fs other new_pre pre_all new_tl concat preview subtitles fcpxml a)
  = Failed (InFeature (AttributeError "RemoveSilence"
                         "remove_silence_from_videos"))
  /\ oa_timeline
       (snd (main fs other new_pre pre_all new_tl concat preview subtitles
               fcpxml a)) = Some t'
  /\ oa_remove_silence_feat
       (snd (main fs other new_pre pre_all new_tl concat preview subtitles
               fcpxml a))
     = Some (OnTimeline (RemoveSilence_init t' folder)).
Proof.
  destruct a as [inp sp ap js ss sj]. cbn. intros -> Hpre Htl Hconcat.
  unfold main, and_then, preprocess_videos, determine_input_folder,
    create_timeline, concatenate_files, remove_silence,
    Orchestrator_remove_silence.
  destruct Hpre as [(-> & -> & ->) | (-> & -> & Hnew & ->)]; cbn.
  - rewrite Htl. cbn. rewrite Hconcat. cbn. auto.
  - rewrite Hnew. cbn. rewrite Htl. cbn. rewrite Hconcat. cbn. auto.
Qed.

Lemma run_ends_in_remove_silence_witness :
  fst (fine_main plain_args)
  = Failed (InFeature (AttributeError "RemoveSilence"
                         "remove_silence_from_videos")).
Proof.
  refine (proj1
    (run_ends_in_remove_silence two_assets_files (fun _ => ret tt)
       fine_PreprocessVideos fine_unit fine_Timeline fine_concatenate
       fine_unit fine_subtitles fine_unit plain_args
       (mkPreprocessVideos "") "videos" (mkTimeline [] [] 0 [])
       two_assets_timeline _ _ _ _)).
  - reflexivity.
  - left. repeat split.
  - reflexivity.
  - reflexivity.
Defined.

(* ------------------------------------------------------------------ *)
(** ** Runs that reach the remove-silence step                         *)
(* ------------------------------------------------------------------ *)

Lemma main_after_early
    fs other new_pre pre_all new_tl concat preview subtitles fcpxml a :
  main fs other new_pre pre_all new_tl concat preview subtitles fcpxml a
  = match steps_before_remove_silence new_pre pre_all new_tl concat
            (Orchestrator_init a) with
    | (Done _, o) =>
        and_then (remove_silence fs other)
          (and_then determine_subtitles_video
             (and_then (add_subtitles preview subtitles)
                (generate_fcpxml fcpxml))) o
    | (Failed f, o) => (Failed f, o)
    end.
Proof.
  unfold main, steps_before_remove_silence.
  generalize (Orchestrator_init a). intros o0.
  unfold and_then.
  destruct (preprocess_videos new_pre pre_all o0) as [[[] | f1] o1];
    [| reflexivity].
  destruct (determine_input_folder o1) as [[[] | f2] o2]; [| reflexivity].
  destruct (create_timeline new_tl o2) as [[[] | f3] o3]; [| reflexivity].
  destruct (concatenate_files concat o3) as [[[] | f4] o4]; reflexivity.
Qed.

(** After the early steps of a run without [--just-subtitles] the
    orchestrator holds the command line and an input folder. *)
Lemma early_steps_set_input_folder new_pre pre_all new_tl concat a o :
  just_subtitles a = false ->
  steps_before_remove_silence new_pre pre_all new_tl concat
    (Orchestrator_init a) = (Done tt, o) ->
  oa_args o = a /\ exists folder, oa_input_folder o = Some folder.
Proof.
  destruct a as [inp sp ap js ss sj]. cbn. intros -> H.
  unfold steps_before_remove_silence, and_then, preprocess_videos,
    determine_input_folder, create_timeline, concatenate_files in H.
  destruct sp, ap; cbn in H;
    repeat (match type of H with
            | context [new_pre ?x] => destruct (new_pre x)
            | context [new_tl ?x] => destruct (new_tl x)
            | context [concat ?x ?y] => destruct (concat x y)
            end; cbn in H);
    try discriminate; injection H as <-; cbn; eauto.
Qed.

(** C5, as stated, fails: not every run of the entry point without
    [--just-subtitles] comes to the remove-silence step.  With no flag
    at all the run ends in [preprocess_videos], on [None], and no
    [RemoveSilence] object was ever built. *)
Lemma every_run_counterexample :
  just_subtitles (mkArgs "videos" false false false false false) = false
  /\ ~ ends_in_remove_silence_step
         (fine_main (mkArgs "videos" false false false false false))
  /\ fst (fine_main (mkArgs "videos" false false false false false))
     = Failed (NoneAttribute "preprocess_all_videos_in_folder")
  /\ oa_remove_silence_feat
       (snd (fine_main (mkArgs "videos" false false false false false)))
     = None.
Proof.
  split; [reflexivity |]. split; [| split; reflexivity].
  unfold ends_in_remove_silence_step. vm_compute. discriminate.
Qed.

(** C5, amended.  In every run of the entry point without
    [--just-subtitles] in which the steps before it return normally, the
    orchestrator's remove-silence step builds a [RemoveSilence] object
    and looks up [remove_silence_from_videos] on it.  The class defines
    no method of that name (its segmentation is [cut_clips], and its
    [remove_silence] does nothing), so the run ends there with an
    attribute error, before any segmentation: the timeline is as the
    concatenation left it and nothing else was called. *)
Theorem reached_remove_silence_step_fails
    fs other new_pre pre_all new_tl concat preview subtitles fcpxml a o :
  just_subtitles a = false ->
  steps_before_remove_silence new_pre pre_all new_tl concat
    (Orchestrator_init a) = (Done tt, o) ->
  assoc "remove_silence_from_videos" RemoveSilence_class = None
  /\ getattr "remove_silence_from_videos" = None
  /\ getattr "cut_clips" = Some (Bound m_cut_clips)
  /\ call_method fs other m_cut_clips = cut_clips fs
  /\ (forall self,
         run (call_method fs other m_remove_silence) self = (Ok tt, self))
  /\ ends_in_remove_silence_step
       (main fs other new_pre pre_all new_tl concat preview subtitles fcpxml
          a)
  /\ oa_timeline
       (snd (main fs other new_pre pre_all new_tl concat preview subtitles
               fcpxml a)) = oa_timeline o
  /\ oa_events
       (snd (main fs other new_pre pre_all new_tl concat preview subtitles
               fcpxml a)) = oa_events o
  /\ exists folder,
       oa_input_folder o = Some folder
       /\ oa_remove_silence_feat
            (snd (main fs other new_pre pre_all new_tl concat preview
                    subtitles fcpxml a))
          = Some (feature_on (oa_timeline o) folder).
Proof.
  intros Hjs Hearly.
  destruct (early_steps_set_input_folder _ _ _ _ _ _ Hjs Hearly)
    as (Hargs & folder & Hfolder).
  assert (Hmain :
    main fs other new_pre pre_all new_tl concat preview subtitles fcpxml a
    = (Failed (InFeature (AttributeError "RemoveSilence"
                            "remove_silence_from_videos")),
       with_feature (Some (feature_on (oa_timeline o) folder)) o)).
  { rewrite main_after_early, Hearly.
    unfold and_then at 1, remove_silence.
    rewrite Hargs, Hjs, Hfolder.
    destruct o as [oa f v sv pf rf [t |] evs]; cbn in *.
    - unfold Orchestrator_remove_silence. cbn. subst oa. rewrite Hjs.
      reflexivity.
    - reflexivity. }
  unfold ends_in_remove_silence_step. rewrite Hmain. cbn [fst snd].
  repeat split; try reflexivity.
  exists folder. split; [exact Hfolder | reflexivity].
Qed.

Lemma reached_remove_silence_step_fails_witness :
  ends_in_remove_silence_step (fine_main plain_args)
  /\ oa_timeline (snd (fine_main plain_args)) = Some two_assets_timeline.
Proof.
  destruct (reached_remove_silence_step_fails two_assets_files
              (fun _ => ret tt) fine_PreprocessVideos fine_unit fine_Timeline
              fine_concatenate fine_unit fine_subtitles fine_unit plain_args
              (snd (steps_before_remove_silence fine_PreprocessVideos
                      fine_unit fine_Timeline fine_concatenate
                      (Orchestrator_init plain_args)))
              eq_refl eq_refl)
    as (_ & _ & _ & _ & _ & Hend & Htl & _).
  split; [exact Hend | exact Htl].
Defined.
